(** * Slug-stable routing of the BHNT dashboard

    A shallow embedding of the dashboard's routing core and of the task
    helpers around it:

    - [getMenuPath], [navigateToTask] and [recordActivityEntry]
      (SINGLE_SOURCE_OF_TRUTH_ARCHITECTURE.md),
    - [loadDynamicMenus], [renderSidebarDynamic] and the router's [resolve]
      (IMPLEMENTATION_NOTES.md, routing guide),
    - [normalizeStatus] and [isTaskCompleted] (TaskItem.js),
    - [handleTaskEdit], [handleTaskComplete], [handleTaskView],
      [handleTaskComment], [getTaskStates] and [getMenuSlug]
      (IMPLEMENTATION_NOTES.md, TaskList component), and
      [showDynamicMenuSection],
    - the pagination of [class ActivityLog] (ActivityLog.js).

    Conventions.  A JavaScript string is a Rocq [string]; text outside ASCII
    is carried as its UTF-8 bytes, which the code here only compares and
    concatenates ([slice], [substring] and [startsWith] are applied to the
    ASCII heads ['/'] and ['dynamic-']; [toLowerCase] and [trim] are left to
    the runtime).  A JavaScript object used as a record of dynamic fields is
    a [gmap string JSVal] of its own properties; reading [o[k]] is a lookup
    among them, which is what the code does for every key that is not the
    name of a member of [Object.prototype] ([inherited_name]): the results
    that rest on a key being absent carry that condition, and the router's
    table is read at paths that start with ['/'].  The module-level variables
    of the page ([dynamicMenus], [activityLogs], [taskState]) are passed
    explicitly, and the clock ([Date.now()], [toISOString()]) is an
    argument. *)

From stdpp Require Import gmap strings list fin_maps pretty.
From Stdlib Require Import ZArith.

Open Scope string_scope.

(** ** JavaScript values *)

Module JS.

(** The values a document field or an object property can hold.  Numbers are
    the integers; objects and arrays are heap references. *)
Inductive JSVal : Type :=
  | VUndefined
  | VNull
  | VBool (b : bool)
  | VNum (z : Z)
  | VStr (s : string)
  | VRef (addr : nat).

(** ToBoolean. *)
Definition truthy (v : JSVal) : bool :=
  match v with
  | VUndefined | VNull => false
  | VBool b => b
  | VNum z => negb (z =? 0)%Z
  | VStr s => negb (String.eqb s "")
  | VRef _ => true
  end.

(** [v === true]. *)
Definition is_true (v : JSVal) : bool :=
  match v with
  | VBool true => true
  | _ => false
  end.

(** Reading a property of an object: a missing property is [undefined]. *)
Definition prop (o : gmap string JSVal) (k : string) : JSVal :=
  default VUndefined (o !! k).

(** [a || b] on values. *)
Definition or_else (a b : JSVal) : JSVal := if truthy a then a else b.

(** The outcome of a call that may raise. *)
Inductive result (A : Type) : Type :=
  | Ok (a : A)
  | Throw (error : string).
Arguments Ok {A} a.
Arguments Throw {A} error.

#[global] Instance result_bind : MBind result := λ A B k r,
  match r with
  | Ok a => k a
  | Throw e => Throw e
  end.

(** A value together with what the call wrote to the console. *)
Definition Logged (A : Type) : Type := A * list string.

(** The string of a truthy-tested optional string field ([s || fallback]). *)
Definition str_or (s : option string) (fallback : string) : string :=
  match s with
  | Some x => if String.eqb x "" then fallback else x
  | None => fallback
  end.

(** [s.substring(n)] / [s.slice(n)] for [0 <= n]: the string without its
    first [n] characters. *)
Fixpoint drop_chars (n : nat) (s : string) : string :=
  match n, s with
  | O, _ => s
  | S _, EmptyString => EmptyString
  | S n', String _ rest => drop_chars n' rest
  end.

(** [s.startsWith(p)] *)
Fixpoint starts_with (p s : string) : bool :=
  match p with
  | EmptyString => true
  | String a p' =>
      match s with
      | EmptyString => false
      | String b s' => if Ascii.eqb a b then starts_with p' s' else false
      end
  end.

(** Whether character [c] occurs in [s]. *)
Fixpoint has_char (c : Ascii.ascii) (s : string) : bool :=
  match s with
  | EmptyString => false
  | String c' rest => if Ascii.eqb c c' then true else has_char c rest
  end.

(** The character ['/']. *)
Definition slash : Ascii.ascii := Ascii.ascii_of_nat 47.

(** The double-quote character, as a one-character string. *)
Definition dquote : string := String (Ascii.ascii_of_nat 34) EmptyString.

(** The names every plain object inherits from [Object.prototype].  On an
    object without an own property of that name, [o[k]] is the inherited
    member - a function, or the prototype itself for ['__proto__'] - which
    is truthy. *)
Definition object_prototype_names : list string :=
  ["constructor"; "hasOwnProperty"; "isPrototypeOf"; "propertyIsEnumerable";
   "toLocaleString"; "toString"; "valueOf"; "__proto__";
   "__defineGetter__"; "__defineSetter__"; "__lookupGetter__"; "__lookupSetter__"].

Definition inherited_name (k : string) : bool :=
  bool_decide (k ∈ object_prototype_names).

End JS.

Export JS.

(** ** The menu directory and the single source of truth *)

Module Directory.

(** A menu document as held in [dynamicMenus]: [{ id: doc.id, ...doc.data() }].
    [menu_slug = None] is a document without a [slug] field. *)
Record Menu : Type := mkMenu {
  menu_id : string;
  menu_slug : option string;
  menu_name : string;
  menu_icon : string;
  menu_type : string;
  menu_order : Z
}.

(** A task of a dynamic menu, as far as navigation reads it. *)
Record Task : Type := mkTask {
  task_id : string
}.

(** [dynamicMenus.find(m => m.id === menuId)] *)
Definition find_menu (dynamicMenus : list Menu) (menuId : string) : option Menu :=
  List.find (λ m, bool_decide (menu_id m = menuId)) dynamicMenus.

(** [getMenuPath(menuId)], with the console warning of the not-found branch. *)
Definition getMenuPath (dynamicMenus : list Menu) (menuId : string) : Logged string :=
  match find_menu dynamicMenus menuId with
  | None => ("/tongquan", ["⚠️ [MENU PATH] Menu not found: " +:+ menuId])
  | Some menu =>
      let slug := str_or (menu_slug menu) ("dynamic-menu/" +:+ menuId) in
      ("/" +:+ slug, [])
  end.

(** [navigateToTask(taskId, menuId = null)].  [dynamicTasks] is the object
    mapping a menu id to its tasks, in the enumeration order of [for..in].
    The result is the path handed to [router.navigate], if any. *)
Definition navigateToTask (dynamicMenus : list Menu)
    (dynamicTasks : list (string * list Task))
    (taskId : string) (menuId : option string) : option string :=
  if String.eqb taskId "" then None
  else if starts_with "dynamic-" taskId then
    let actualTaskId := drop_chars 8 taskId in
    let provided :=
      match menuId with
      | Some i => if String.eqb i "" then None else find_menu dynamicMenus i
      | None => None
      end in
    let foundMenu :=
      match provided with
      | Some m => Some m
      | None =>
          match List.find
                  (λ entry, existsb (λ t, bool_decide (task_id t = actualTaskId))
                                    (snd entry))
                  dynamicTasks with
          | Some (searchMenuId, _) => find_menu dynamicMenus searchMenuId
          | None => None
          end
      end in
    match foundMenu with
    | Some m => Some (fst (getMenuPath dynamicMenus (menu_id m)))
    | None => None
    end
  else None.

(** The directory after an administrator saved a new slug for one menu and
    the snapshot listener delivered the updated documents. *)
Definition set_slug (menuId newSlug : string) (m : Menu) : Menu :=
  if bool_decide (menu_id m = menuId)
  then mkMenu (menu_id m) (Some newSlug) (menu_name m) (menu_icon m)
              (menu_type m) (menu_order m)
  else m.

Definition rename_slug (menuId newSlug : string) (dynamicMenus : list Menu) : list Menu :=
  set_slug menuId newSlug <$> dynamicMenus.

(** The directory after a menu document was deleted. *)
Definition delete_menu (menuId : string) (dynamicMenus : list Menu) : list Menu :=
  List.filter (λ m, negb (bool_decide (menu_id m = menuId))) dynamicMenus.

End Directory.

(** ** The router's path resolution *)

Module Router.
Import Directory.

(** A route object: an entry of [routeConfig], or the literal built for a
    dynamic menu. *)
Abbreviation Route := (gmap string JSVal).

(** What [resolve] returns: [{ path, route }] or [{ path, route, notFound: true }]. *)
Record Resolved : Type := mkResolved {
  path : string;
  route : Route;
  notFound : bool
}.

(** [routeConfig], the static routes.  The bodies of the two administration
    routes are elided in the notes and are left open here. *)
Definition routeConfig (userManagement planManagement : Route) : gmap string Route :=
  <["/" := {[ "layout" := VStr "cover" ]}]>
  (<["/login" := {[ "layout" := VStr "login" ]}]>
  (<["/tongquan" := {[ "layout" := VStr "app" ]}]>
  (<["/ghichu" := {[ "layout" := VStr "app" ]}]>
  (<["/quan-ly-nguoi-dung" := userManagement]>
  (<["/quan-ly-ke-hoach" := planManagement]>
  (<["/cai-dat" := {[ "layout" := VStr "app" ]}]> ∅)))))).

(** The route literal of a dynamic menu. *)
Definition dynamicRoute (dynamicMenu : Menu) : Route :=
  <["layout" := VStr "app"]>
  (<["section" := VStr "dynamic-menu"]>
  (<["menuId" := VStr (menu_id dynamicMenu)]>
  (<["menuName" := VStr (menu_name dynamicMenu)]> ∅))).

(** The predicate handed to [dynamicMenus.find] by [resolve]. *)
Definition matches_segment (pathWithoutSlash : string) (m : Menu) : bool :=
  bool_decide (menu_type m = "task-list") &&
  (bool_decide (menu_slug m = Some pathWithoutSlash)
   || bool_decide ("dynamic-menu/" +:+ menu_id m = pathWithoutSlash)).

Section Resolve.

(** [normalizeRoutePath] and [defaultRoute] are defined elsewhere in the
    page; [config] is the table the router was created with.  The code
    takes a normalized path to start with ['/'] ("Remove leading /"); at
    such a path [config[normalized]] is an own entry of the table or
    nothing, and [slice(1)] removes the slash. *)
Variable normalizeRoutePath : string → string.
Variable config : gmap string Route.
Variable defaultRoute : Route.

(** [createRouter().resolve(pathname)] *)
Definition resolve (dynamicMenus : list Menu) (pathname : string) : Resolved :=
  let normalized := normalizeRoutePath pathname in
  match config !! normalized with
  | Some staticRoute => mkResolved normalized staticRoute false
  | None =>
      let pathWithoutSlash := drop_chars 1 normalized in
      match List.find (matches_segment pathWithoutSlash) dynamicMenus with
      | Some dynamicMenu => mkResolved normalized (dynamicRoute dynamicMenu) false
      | None => mkResolved "/" defaultRoute true
      end
  end.

End Resolve.

End Router.

(** ** Menu synchronisation and the sidebar *)

Module Sync.
Import Directory.

(** A document of the [menus] collection in a snapshot.  [data_id] is an
    [id] field stored inside the document data, which the spread in
    [{ id: doc.id, ...doc.data() }] lets take the place of [doc.id]. *)
Record MenuDoc : Type := mkMenuDoc {
  doc_id : string;
  data_id : option string;
  data_slug : option string;
  data_name : string;
  data_icon : string;
  data_type : string;
  data_order : Z
}.

(** The part of the page the menu listener writes: the [dynamicMenus]
    variable and the [innerHTML] of [#main-navigation]. *)
Record Page : Type := mkPage {
  dynamicMenus : list Menu;
  main_navigation : string
}.

(** [{ id: doc.id, ...doc.data() }] *)
Definition menu_of_doc (doc : MenuDoc) : Menu :=
  mkMenu (default (doc_id doc) (data_id doc)) (data_slug doc) (data_name doc)
         (data_icon doc) (data_type doc) (data_order doc).

(** One iteration of the [forEach] in [renderSidebarDynamic]. *)
Definition sidebar_link (html : string) (menu : Menu) : string :=
  if bool_decide (menu_type menu = "task-list") then
    let menuPath :=
      match menu_slug menu with
      | Some s => if String.eqb s "" then "/dynamic-menu/" +:+ menu_id menu
                  else "/" +:+ s
      | None => "/dynamic-menu/" +:+ menu_id menu
      end in
    html +:+ "<a class=" +:+ dquote +:+ "nav-link" +:+ dquote +:+ " href="
         +:+ dquote +:+ menuPath +:+ dquote +:+ ">"
         +:+ menu_icon menu +:+ " " +:+ menu_name menu +:+ "</a>"
  else html.

(** [renderSidebarDynamic()] *)
Definition renderSidebarDynamic (page : Page) : Page :=
  let html := "<a class=" +:+ dquote +:+ "nav-link" +:+ dquote +:+ " href="
              +:+ dquote +:+ "/tongquan" +:+ dquote +:+ ">📊 Tổng Quan</a>" in
  mkPage (dynamicMenus page) (fold_left sidebar_link (dynamicMenus page) html).

(** The listener installed by [loadDynamicMenus()]: the array is emptied,
    refilled from the snapshot, and the sidebar is rendered again. *)
Definition onSnapshot (snapshot : list MenuDoc) (page : Page) : Page :=
  let emptied := mkPage [] (main_navigation page) in
  let refilled :=
    fold_left (λ pg doc, mkPage (dynamicMenus pg ++ [menu_of_doc doc])
                                (main_navigation pg))
              snapshot emptied in
  renderSidebarDynamic refilled.

End Sync.

(** ** The activity recorder *)

Module Recorder.

(** The destructured argument of [recordActivityEntry]; an omitted property
    is [VUndefined]. *)
Record ActivityArgs : Type := mkActivityArgs {
  arg_taskId : string;
  arg_taskName : JSVal;
  arg_phase : JSVal;
  arg_status : JSVal;
  arg_timestamp : JSVal;
  arg_completedAt : JSVal;
  arg_performedBy : JSVal;
  arg_menuId : JSVal
}.

(** The entry literal of [recordActivityEntry]; [now] is [Date.now()]. *)
Definition activityEntry (args : ActivityArgs) (now : Z) : gmap string JSVal :=
  <["id" := VStr (arg_taskId args +:+ "-" +:+ pretty now)]>
  (<["taskId" := VStr (arg_taskId args)]>
  (<["taskName" := arg_taskName args]>
  (<["phase" := arg_phase args]>
  (<["status" := arg_status args]>
  (<["completedAt" := arg_completedAt args]>
  (<["updatedAt" := arg_timestamp args]>
  (<["performedBy" := arg_performedBy args]>
  (<["menuId" := or_else (arg_menuId args) VNull]> ∅)))))))).

(** [recordActivityEntry({...})]: [activityLogs = [entry, ...activityLogs]]. *)
Definition recordActivityEntry (args : ActivityArgs) (now : Z)
    (activityLogs : list (gmap string JSVal)) : list (gmap string JSVal) :=
  activityEntry args now :: activityLogs.

(** The four task actions that record an entry. *)
Inductive Action : Type := CompleteTask | SaveComment | EditLink | DeleteResult.

(** The argument each action handler passes to [recordActivityEntry]. *)
Definition action_args (action : Action) (taskId : string) (taskName : string)
    (phaseLabel timestamp performer : JSVal) (menuId : string) : ActivityArgs :=
  match action with
  | CompleteTask =>
      mkActivityArgs ("dynamic-" +:+ taskId) (VStr taskName) phaseLabel
        (VStr "completed") timestamp timestamp performer (VStr menuId)
  | SaveComment | EditLink =>
      mkActivityArgs ("dynamic-" +:+ taskId) (VStr taskName) VUndefined
        (VStr "edited") VUndefined VUndefined VUndefined (VStr menuId)
  | DeleteResult =>
      mkActivityArgs ("dynamic-" +:+ taskId) (VStr taskName) VUndefined
        (VStr "deleted") VUndefined VUndefined VUndefined (VStr menuId)
  end.

End Recorder.

(** ** Completion status of a task (TaskItem.js) *)

Module TaskItem.

Definition completedVariations : list string :=
  ["completed"; "hoàn thành"; "đã hoàn thành"; "done"; "xong"].

Section Status.

(** [String.prototype.toLowerCase] and [String.prototype.trim]. *)
Variable toLowerCase : string → string.
Variable trim : string → string.

(** [normalizeStatus(status)].  A truthy status that is not a string has
    no [toLowerCase] method. *)
Definition normalizeStatus (status : JSVal) : result string :=
  if truthy status then
    match status with
    | VStr s => Ok (trim (toLowerCase s))
    | _ => Throw "TypeError: status.toLowerCase is not a function"
    end
  else Ok "".

(** The body of [if (o.status) { ... }] in FALLBACK 3 and 4: whether the
    status of [o] is one of the completed variations. *)
Definition status_completed (o : gmap string JSVal) : result bool :=
  if truthy (prop o "status") then
    status ← normalizeStatus (prop o "status");
    Ok (bool_decide (status ∈ completedVariations))
  else Ok false.

(** [isTaskCompleted(task, taskState = {})] *)
Definition isTaskCompleted (task taskState : gmap string JSVal) : result bool :=
  if is_true (prop taskState "completed") then Ok true
  else if is_true (prop task "isCompleted") then Ok true
  else if is_true (prop task "completed") then Ok true
  else
    byTaskStatus ← status_completed task;
    if byTaskStatus : bool then Ok true
    else
      byStateStatus ← status_completed taskState;
      if byStateStatus : bool then Ok true
      else if truthy (or_else (prop task "completionLink") (prop taskState "link"))
      then Ok true
      else Ok false.

(** A status is documented as a string: the field holds a string or a
    falsy value (a missing field included). *)
Definition status_is_text (o : gmap string JSVal) : Prop :=
  truthy (prop o "status") = false ∨ ∃ s, prop o "status" = VStr s.

(** What the status check accepts, in the words of its documentation: a
    non-empty string that, lowered and trimmed, is one of the completed
    variations. *)
Definition status_accepts (status : JSVal) : bool :=
  match status with
  | VStr s =>
      negb (String.eqb s "")
      && bool_decide (trim (toLowerCase s) ∈ completedVariations)
  | _ => false
  end.

End Status.

(** The two built-ins on ASCII text: letters [A]-[Z] are lowered, and the
    ASCII white space (tab, line feed, vertical tab, form feed, carriage
    return, space) is removed at both ends.  Bytes above 127 are kept. *)
Definition lower_ascii (c : Ascii.ascii) : Ascii.ascii :=
  let n := Ascii.nat_of_ascii c in
  if (65 <=? n)%nat && (n <=? 90)%nat then Ascii.ascii_of_nat (n + 32) else c.

Fixpoint toLowerCase_ascii (s : string) : string :=
  match s with
  | EmptyString => EmptyString
  | String c rest => String (lower_ascii c) (toLowerCase_ascii rest)
  end.

Definition is_space (c : Ascii.ascii) : bool :=
  let n := Ascii.nat_of_ascii c in
  ((9 <=? n)%nat && (n <=? 13)%nat) || (n =? 32)%nat.

Fixpoint trim_start (s : string) : string :=
  match s with
  | EmptyString => EmptyString
  | String c rest => if is_space c then trim_start rest else s
  end.

Definition trim_ascii (s : string) : string :=
  String.rev (trim_start (String.rev (trim_start s))).

(** Text within ASCII (every byte is below 128), and text made of ASCII
    white space only. *)
Fixpoint ascii_only (s : string) : bool :=
  match s with
  | EmptyString => true
  | String c rest => (Ascii.nat_of_ascii c <? 128)%nat && ascii_only rest
  end.

Fixpoint blank (s : string) : bool :=
  match s with
  | EmptyString => true
  | String c rest => is_space c && blank rest
  end.

End TaskItem.

(** ** Reopening a task (TaskList component) *)

Module TaskList.

(** [taskState[taskId].field = value] *)
Definition set_field (taskId field : string) (value : JSVal)
    (taskState : gmap string (gmap string JSVal)) : gmap string (gmap string JSVal) :=
  alter (insert field value) taskId taskState.

(** [handleTaskEdit({ taskId, taskState })] up to the [onSuccess] callback;
    [now] is [new Date().toISOString()]. *)
Definition handleTaskEdit (taskId : string) (now : string)
    (taskState : gmap string (gmap string JSVal)) : gmap string (gmap string JSVal) :=
  let taskState0 :=
    match taskState !! taskId with
    | Some _ => taskState
    | None => <[taskId := ∅]> taskState
    end in
  set_field taskId "updatedAt" (VStr now)
    (set_field taskId "completedAt" VNull
      (set_field taskId "completed" (VBool false) taskState0)).

End TaskList.

(** ** The paginated activity log (ActivityLog.js, class [ActivityLog]) *)

Module ActivityLog.

(** [Math.ceil(a / b)] on integers, [b] not zero.  For an array length and a
    whole page size the quotient of the two doubles rounds to the exact
    ceiling. *)
Definition ceil_div (a b : Z) : Z := (- ((- a) / b))%Z.

(** The clamping of one index of [Array.prototype.slice]. *)
Definition slice_index (len i : Z) : Z :=
  if (i <? 0)%Z then Z.max (len + i) 0 else Z.min i len.

(** [l.slice(start, end)] *)
Definition slice {A} (l : list A) (start end_ : Z) : list A :=
  let len := Z.of_nat (length l) in
  let k := slice_index len start in
  let final := slice_index len end_ in
  take (Z.to_nat (final - k)) (drop (Z.to_nat k) l).

(** An entry of the pagination bar: a page number or the ['...'] string. *)
Inductive PageItem : Type :=
  | PageNo (n : Z)
  | Ellipsis.

(** [pages.includes(i)] for a number [i]. *)
Definition includes (pages : list PageItem) (i : Z) : bool :=
  existsb (λ item, match item with PageNo n => (n =? i)%Z | Ellipsis => false end)
          pages.

(** Whether the items after page [last] mark their gaps: a number follows its
    predecessor directly, unless one ellipsis stands between the two, in which
    case at least one page is skipped; no ellipsis is left hanging. *)
Fixpoint spaced (last : Z) (gap : bool) (items : list PageItem) : bool :=
  match items with
  | [] => negb gap
  | PageNo n :: rest =>
      (if gap then (last + 1 <? n)%Z else (n =? last + 1)%Z) && spaced n false rest
  | Ellipsis :: rest => negb gap && spaced last true rest
  end.

(** A bar that starts at page 1 and marks its gaps. *)
Definition well_spaced (items : list PageItem) : bool :=
  match items with
  | PageNo n :: rest => (n =? 1)%Z && spaced 1 false rest
  | _ => false
  end.

(** What a click on the log can ask for, and the two data updates. *)
Inductive Op (A : Type) : Type :=
  | GoToPage (page : Z)
  | PreviousPage
  | NextPage
  | UpdateActivities (activities : option (list A))
  | Destroy.
Arguments GoToPage {A} page.
Arguments PreviousPage {A}.
Arguments NextPage {A}.
Arguments UpdateActivities {A} activities.
Arguments Destroy {A}.

Section Log.

Variable A : Type.

(** The fields of the component that pagination reads and writes. *)
Record State : Type := mkState {
  activities : list A;
  itemsPerPage : Z;
  currentPage : Z
}.

(** [new ActivityLog(config)]: [config.activities || []],
    [config.itemsPerPage || 10], page 1. *)
Definition constructor (config_activities : option (list A))
    (config_itemsPerPage : option Z) : State :=
  mkState (default [] config_activities)
          (match config_itemsPerPage with
           | Some n => if (n =? 0)%Z then 10%Z else n
           | None => 10%Z
           end)
          1.

(** [updateActivities(activities)] *)
Definition updateActivities (new_activities : option (list A)) (s : State) : State :=
  mkState (default [] new_activities) (itemsPerPage s) 1.

(** [getTotalPages()] *)
Definition getTotalPages (s : State) : Z :=
  ceil_div (Z.of_nat (length (activities s))) (itemsPerPage s).

(** [getCurrentPageData()] *)
Definition getCurrentPageData (s : State) : list A :=
  let startIndex := ((currentPage s - 1) * itemsPerPage s)%Z in
  let endIndex := (startIndex + itemsPerPage s)%Z in
  slice (activities s) startIndex endIndex.

(** [goToPage(page)] *)
Definition goToPage (page : Z) (s : State) : State :=
  let totalPages := getTotalPages s in
  if (page <? 1)%Z || (page >? totalPages)%Z then s
  else mkState (activities s) (itemsPerPage s) page.

(** [previousPage()] *)
Definition previousPage (s : State) : State :=
  if (currentPage s >? 1)%Z then goToPage (currentPage s - 1) s else s.

(** [nextPage()] *)
Definition nextPage (s : State) : State :=
  let totalPages := getTotalPages s in
  if (currentPage s <? totalPages)%Z then goToPage (currentPage s + 1) s else s.

(** [destroy()] *)
Definition destroy (s : State) : State :=
  mkState [] (itemsPerPage s) 1.

(** [getPageNumbers()] *)
Definition getPageNumbers (s : State) : list PageItem :=
  let totalPages := getTotalPages s in
  let current := currentPage s in
  if (totalPages <=? 7)%Z then
    fold_left (λ pages i, (pages ++ [PageNo i])%list) (seqZ 1 totalPages) []
  else
    let pages1 := [PageNo 1] in
    let pages2 := if (current >? 3)%Z then (pages1 ++ [Ellipsis])%list else pages1 in
    let start := Z.max 2 (current - 1) in
    let end_ := Z.min (totalPages - 1) (current + 1) in
    let pages3 :=
      fold_left (λ pages i, if includes pages i then pages else (pages ++ [PageNo i])%list)
                (seqZ start (end_ - start + 1)) pages2 in
    let pages4 :=
      if (current <? totalPages - 2)%Z then (pages3 ++ [Ellipsis])%list else pages3 in
    if includes pages4 totalPages then pages4 else (pages4 ++ [PageNo totalPages])%list.

(** The range announced by [render()] in ["Showing a-b of n"], when there are
    activities. *)
Definition shown_range (s : State) : option (Z * Z) :=
  let startIndex := ((currentPage s - 1) * itemsPerPage s + 1)%Z in
  let endIndex :=
    Z.min (currentPage s * itemsPerPage s) (Z.of_nat (length (activities s))) in
  if (Z.of_nat (length (activities s)) >? 0)%Z then Some (startIndex, endIndex)
  else None.

(** The effect of one operation on the component. *)
Definition step (s : State) (op : Op A) : State :=
  match op with
  | GoToPage page => goToPage page s
  | PreviousPage => previousPage s
  | NextPage => nextPage s
  | UpdateActivities new_activities => updateActivities new_activities s
  | Destroy => destroy s
  end.

(** A session: the constructor followed by any operations. *)
Definition run (ops : list (Op A)) (s : State) : State := fold_left step ops s.

End Log.

Arguments mkState {A} _ _ _.
Arguments activities {A} _.
Arguments itemsPerPage {A} _.
Arguments currentPage {A} _.
Arguments constructor {A} _ _.
Arguments updateActivities {A} _ _.
Arguments getTotalPages {A} _.
Arguments getCurrentPageData {A} _.
Arguments goToPage {A} _ _.
Arguments previousPage {A} _.
Arguments nextPage {A} _.
Arguments destroy {A} _.
Arguments getPageNumbers {A} _.
Arguments shown_range {A} _.
Arguments step {A} _ _.
Arguments run {A} _ _.

End ActivityLog.

(** ** The other handlers of the TaskList component *)

Module TaskHandlers.
Import Directory TaskList.

(** [getMenuSlug(menuId, dynamicMenus = [])]; a missing [menuId] is the empty
    string. *)
Definition getMenuSlug (menuId : string) (dynamicMenus : list Menu) : string :=
  if String.eqb menuId "" then "tongquan"
  else
    let current :=
      match dynamicMenus with
      | [] => None
      | _ :: _ =>
          match find_menu dynamicMenus menuId with
          | Some menu =>
              match menu_slug menu with
              | Some slug => if String.eqb slug "" then None else Some slug
              | None => None
              end
          | None => None
          end
      end in
    match current with
    | Some slug => slug
    | None => menuId
    end.

(** The state literal given to a task that has none; its [comments] array is
    a new object, at address [addr]. *)
Definition initial_state (addr : nat) : gmap string JSVal :=
  <["completed" := VBool false]>
  (<["link" := VStr ""]>
  (<["completedAt" := VNull]>
  (<["comments" := VRef addr]>
  (<["updatedAt" := VNull]> ∅)))).

(** What [getTaskStates] has built so far: the [states] object under
    construction, the (mutated) global [taskState], and the next free heap
    address. *)
Record TaskStates : Type := mkTaskStates {
  states : gmap string (gmap string JSVal);
  global_taskState : gmap string (gmap string JSVal);
  next_address : nat
}.

(** One iteration of the [forEach] of [getTaskStates].  [None] is a null
    task; a task whose id is empty is skipped as well. *)
Definition getTaskStates_step (acc : TaskStates) (task : option Task) : TaskStates :=
  match task with
  | None => acc
  | Some t =>
      if String.eqb (task_id t) "" then acc
      else
        match global_taskState acc !! task_id t with
        | Some entry =>
            mkTaskStates (<[task_id t := entry]> (states acc))
                         (global_taskState acc) (next_address acc)
        | None =>
            let entry := initial_state (next_address acc) in
            mkTaskStates (<[task_id t := entry]> (states acc))
                         (<[task_id t := entry]> (global_taskState acc))
                         (S (next_address acc))
        end
  end.

(** [getTaskStates(tasks, taskState)] *)
Definition getTaskStates (tasks : list (option Task))
    (taskState : gmap string (gmap string JSVal)) (next : nat) : TaskStates :=
  fold_left getTaskStates_step tasks (mkTaskStates ∅ taskState next).

(** Reading the state of one task off a [taskState] that is not changed. *)
Definition collect_state (taskState : gmap string (gmap string JSVal))
    (collected : gmap string (gmap string JSVal)) (task : option Task)
    : gmap string (gmap string JSVal) :=
  match task with
  | None => collected
  | Some t =>
      if String.eqb (task_id t) "" then collected
      else
        match taskState !! task_id t with
        | Some entry => <[task_id t := entry]> collected
        | None => collected
        end
  end.

(** What a handler hands to its [onSuccess] or [onError] callback. *)
Inductive Callback : Type :=
  | Completed (taskId slug : string) (state : gmap string JSVal)
  | Viewed (taskId slug : string) (link : JSVal)
  | CommentToggled (taskId slug : string) (isOpen : bool)
  | Failed (taskId message : string).

Section Handlers.

(** [String.prototype.trim], and whether [new URL(s)] accepts [s]. *)
Variable trim : string → string.
Variable valid_url : string → bool.

(** [handleTaskComplete({ taskId, slug, taskState })].  [input] is the value
    of the element [task-input-<taskId>], if the element exists; the two
    times are the two readings of the clock. *)
Definition handleTaskComplete (taskId slug : string) (input : option string)
    (completedAt updatedAt : string)
    (taskState : gmap string (gmap string JSVal))
    : gmap string (gmap string JSVal) * Callback :=
  match input with
  | None =>
      (taskState,
       Failed taskId "Please enter a completion link before marking complete")
  | Some value =>
      if String.eqb (trim value) "" then
        (taskState,
         Failed taskId "Please enter a completion link before marking complete")
      else
        let completionLink := trim value in
        if valid_url completionLink then
          let taskState0 :=
            match taskState !! taskId with
            | Some _ => taskState
            | None => <[taskId := ∅]> taskState
            end in
          let taskState' :=
            set_field taskId "updatedAt" (VStr updatedAt)
              (set_field taskId "completedAt" (VStr completedAt)
                (set_field taskId "link" (VStr completionLink)
                  (set_field taskId "completed" (VBool true) taskState0))) in
          (taskState', Completed taskId slug (default ∅ (taskState' !! taskId)))
        else
          (taskState,
           Failed taskId
             "Invalid URL format. Please enter a complete URL (http:// or https://)")
  end.

End Handlers.

(** [handleTaskView({ taskId, slug, taskState })]; [open_throws] tells whether
    [window.open] raises. *)
Definition handleTaskView (taskId slug : string) (open_throws : bool)
    (taskState : gmap string (gmap string JSVal)) : Callback :=
  match taskState !! taskId with
  | None => Failed taskId "No completion link available for this task"
  | Some state =>
      if truthy (prop state "link") then
        if open_throws then Failed taskId "Failed to open completion link"
        else Viewed taskId slug (prop state "link")
      else Failed taskId "No completion link available for this task"
  end.

(** [handleTaskComment({ taskId, slug, openCommentSections })] *)
Definition handleTaskComment (taskId slug : string)
    (openCommentSections : gset string) : gset string * Callback :=
  let toggled :=
    if bool_decide (taskId ∈ openCommentSections)
    then openCommentSections ∖ {[ taskId ]}
    else openCommentSections ∪ {[ taskId ]} in
  (toggled, CommentToggled taskId slug (bool_decide (taskId ∈ toggled))).

End TaskHandlers.

(** ** Showing a dynamic menu *)

Module MenuSection.
Import Directory.

(** What [showDynamicMenuSection] puts in the tasks container: the
    "menu not found" card, or the content of the menu it found. *)
Inductive SectionView : Type :=
  | MenuNotFound
  | MenuContent (menu : Menu).

(** [showDynamicMenuSection(menuId)] *)
Definition showDynamicMenuSection (dynamicMenus : list Menu) (menuId : string)
    : SectionView :=
  match find_menu dynamicMenus menuId with
  | None => MenuNotFound
  | Some menu => MenuContent menu
  end.

End MenuSection.

(** ** Sample data *)

Module Samples.
Import Directory Router Sync Recorder.

(** A task-list menu, as in the notes: slug [giaidoan1]. *)
Definition phase1 : Menu :=
  mkMenu "m1" (Some "giaidoan1") "Giai Đoạn 1" "📋" "task-list" 1.

(** An external link that was given a slug. *)
Definition docs_link : Menu :=
  mkMenu "x1" (Some "docs") "Tài liệu" "↗" "external-link" 2.

(** An external link without a slug field. *)
Definition plain_link : Menu :=
  mkMenu "x2" None "Drive" "↗" "external-link" 3.

(** A task-list menu whose slug is the reserved name [tongquan]. *)
Definition overview_twin : Menu :=
  mkMenu "m9" (Some "tongquan") "Tổng Quan 2" "📋" "task-list" 4.

(** The static table with both administration routes on the app layout. *)
Definition staticConfig : gmap string Route :=
  routeConfig {[ "layout" := VStr "app" ]} {[ "layout" := VStr "app" ]}.

(** The cover page, served when nothing matches. *)
Definition coverRoute : Route := {[ "layout" := VStr "cover" ]}.

(** Paths that are already in normal form stay as they are. *)
Definition keepPath (p : string) : string := p.

(** A task whose [status] holds a number, with a completion link. *)
Definition numberedTask : gmap string JSVal :=
  <["status" := VNum 5]> {[ "completionLink" := VStr "https://example.com" ]}.

(** The state of a completed task: proof link and a comments array. *)
Definition completedState : gmap string JSVal :=
  <["completed" := VBool true]>
  (<["link" := VStr "https://example.com/proof"]>
  (<["completedAt" := VStr "2025-01-12T08:00:00.000Z"]>
  (<["comments" := VRef 7]>
  (<["updatedAt" := VStr "2025-01-12T08:00:00.000Z"]> ∅)))).

End Samples.

(** ** Sample data for the log and the handlers *)

Module MoreSamples.
Import Directory Sync ActivityLog.

(** Twenty-five activities, ten per page, shown on page 2 (of 3). *)
Definition midLog : State nat := mkState (seq 0 25) 10 2.

(** Ninety-five activities, ten per page, shown on page 5 (of 10). *)
Definition longLog : State nat := mkState (seq 0 95) 10 5.

(** A stand-in for the URL parser, used on well-formed [http] and [https]
    addresses, which [new URL] accepts. *)
Definition web_url (s : string) : bool :=
  starts_with "http://" s || starts_with "https://" s.

(** A second task-list menu. *)
Definition phase2 : Menu :=
  mkMenu "m2" (Some "giaidoan2") "Giai Đoạn 2" "📋" "task-list" 2.

(** A task-list menu that was never given a slug. *)
Definition legacy_phase : Menu :=
  mkMenu "m3" None "Giai Đoạn 3" "📋" "task-list" 3.

(** The tasks loaded for menu [m2]. *)
Definition loadedTasks : list (string * list Task) :=
  [("m2", [mkTask "abc123"; mkTask "def456"])].

(** A snapshot of two documents. *)
Definition twoDocs : list MenuDoc :=
  [mkMenuDoc "m1" None (Some "giai-doan-1") "Giai Đoạn 1" "📋" "task-list" 1;
   mkMenuDoc "x2" None None "Drive" "↗" "external-link" 2].

End MoreSamples.

(** * Properties *)

(** ** Strings *)

Module StringFacts.

Lemma append_length (s1 s2 : string) :
  String.length (s1 +:+ s2) = String.length s1 + String.length s2.
Proof.
  induction s1 as [|c s1 IH]; [done |].
  change (S (String.length (s1 +:+ s2)) = S (String.length s1 + String.length s2)).
  by rewrite IH.
Qed.

Lemma append_assoc (s1 s2 s3 : string) : (s1 +:+ s2) +:+ s3 = s1 +:+ (s2 +:+ s3).
Proof.
  induction s1 as [|c s1 IH]; [done |].
  change (String c ((s1 +:+ s2) +:+ s3) = String c (s1 +:+ (s2 +:+ s3))).
  by rewrite IH.
Qed.

Lemma append_empty_r (s : string) : s +:+ "" = s.
Proof.
  induction s as [|c s IH]; [done |].
  change (String c (s +:+ "") = String c s). by rewrite IH.
Qed.

End StringFacts.

(** ** [getMenuPath] and [navigateToTask] *)

Module DirectoryFacts.
Import Directory.

(** [Array.prototype.find] returns the only element that can satisfy the
    predicate. *)
Lemma find_unique {A} (f : A → bool) (l : list A) (x : A) :
  x ∈ l → f x = true → (∀ y, y ∈ l → f y = true → y = x) →
  List.find f l = Some x.
Proof.
  induction l as [|y l IH]; intros Hin Hfx Huniq.
  - by apply elem_of_nil in Hin.
  - simpl. destruct (f y) eqn:Hfy.
    + f_equal. apply Huniq; [left | done].
    + apply IH; [| done |].
      * apply elem_of_cons in Hin as [-> | Hin]; [congruence | done].
      * intros z Hz. apply Huniq. by right.
Qed.

Lemma find_none_iff {A} (f : A → bool) (l : list A) :
  List.find f l = None ↔ ∀ y, y ∈ l → f y = false.
Proof.
  induction l as [|y l IH]; simpl.
  - split; [intros _ z Hz; by apply elem_of_nil in Hz | done].
  - destruct (f y) eqn:Hfy.
    + split; [done |]. intros H. specialize (H y). rewrite Hfy in H.
      discriminate H. left.
    + rewrite IH. split.
      * intros H z Hz. apply elem_of_cons in Hz as [-> | Hz]; auto.
      * intros H z Hz. apply H. by right.
Qed.

Lemma find_some_elem {A} (f : A → bool) (l : list A) (x : A) :
  List.find f l = Some x → x ∈ l ∧ f x = true.
Proof.
  induction l as [|y l IH]; simpl; [done |].
  destruct (f y) eqn:Hfy.
  - intros [= ->]. split; [left | done].
  - intros H. destruct (IH H). split; [by right | done].
Qed.

(** With distinct ids, the directory's entry for [m]'s id is [m]. *)
Lemma find_menu_present (dynamicMenus : list Menu) (m : Menu) :
  m ∈ dynamicMenus → NoDup (menu_id <$> dynamicMenus) →
  find_menu dynamicMenus (menu_id m) = Some m.
Proof.
  intros Hin Hnd. apply find_unique; [done | by apply bool_decide_eq_true |].
  intros y Hy Heq%bool_decide_eq_true.
  apply list_elem_of_lookup in Hin as [i Hi].
  apply list_elem_of_lookup in Hy as [j Hj].
  assert (i = j) as ->.
  { eapply NoDup_lookup; [exact Hnd | |].
    - rewrite list_lookup_fmap, Hi. reflexivity.
    - rewrite list_lookup_fmap, Hj. simpl. by rewrite Heq. }
  congruence.
Qed.

Lemma find_menu_absent (dynamicMenus : list Menu) (menuId : string) :
  menuId ∉ menu_id <$> dynamicMenus → find_menu dynamicMenus menuId = None.
Proof.
  intros Hnot. apply find_none_iff. intros y Hy.
  apply bool_decide_eq_false. intros Heq. apply Hnot.
  apply list_elem_of_fmap. by exists y.
Qed.

Lemma delete_menu_absent (dynamicMenus : list Menu) (menuId : string) :
  menuId ∉ menu_id <$> delete_menu menuId dynamicMenus.
Proof.
  intros (y & Heq & Hy)%list_elem_of_fmap.
  unfold delete_menu in Hy. apply list_elem_of_In, filter_In in Hy as [_ Hy].
  apply negb_true_iff, bool_decide_eq_false in Hy. by apply Hy.
Qed.

Lemma rename_slug_ids (menuId newSlug : string) (dynamicMenus : list Menu) :
  menu_id <$> rename_slug menuId newSlug dynamicMenus = menu_id <$> dynamicMenus.
Proof.
  unfold rename_slug. rewrite <- list_fmap_compose. apply list_fmap_ext.
  intros i m _. unfold set_slug. simpl. by case_bool_decide.
Qed.

Lemma str_or_nonempty (s fallback : string) :
  s ≠ "" → str_or (Some s) fallback = s.
Proof.
  intros Hs. unfold str_or. destruct (String.eqb_spec s ""); [done | reflexivity].
Qed.

(** The path of a present menu: its slug when it has one, the id-based path
    otherwise. *)
Lemma getMenuPath_present (dynamicMenus : list Menu) (m : Menu) :
  m ∈ dynamicMenus → NoDup (menu_id <$> dynamicMenus) →
  getMenuPath dynamicMenus (menu_id m)
  = ("/" +:+ str_or (menu_slug m) ("dynamic-menu/" +:+ menu_id m), []).
Proof.
  intros Hin Hnd. unfold getMenuPath. by rewrite find_menu_present.
Qed.

(** [navigateToTask] with the menu id of an activity entry goes where
    [getMenuPath] says. *)
Lemma navigateToTask_provided (dynamicMenus : list Menu) dynamicTasks
    (m : Menu) (task : string) :
  m ∈ dynamicMenus → NoDup (menu_id <$> dynamicMenus) → menu_id m ≠ "" →
  navigateToTask dynamicMenus dynamicTasks ("dynamic-" +:+ task) (Some (menu_id m))
  = Some (getMenuPath dynamicMenus (menu_id m)).1.
Proof.
  intros Hin Hnd Hid. unfold navigateToTask. simpl.
  destruct (String.eqb_spec (menu_id m) ""); [done |].
  by rewrite find_menu_present.
Qed.

(** C1, as amended.  For a menu [m] present in the directory (ids being
    distinct) and an activity entry carrying [m]'s id, [getMenuPath] returns
    ["/"] followed by [m]'s current slug whenever that slug is a non-empty
    string, and ["/dynamic-menu/<id>"] when the slug is missing or empty;
    [navigateToTask] navigates to that path.  In particular, when the slug is
    ["a"] and is then renamed to ["b"] (both non-empty), the resolution
    before the rename gives ["/a"] and the one after gives ["/b"]. *)
Theorem getMenuPath_live_slug (dynamicMenus : list Menu) (m : Menu) :
  m ∈ dynamicMenus → NoDup (menu_id <$> dynamicMenus) →
  (∀ s, menu_slug m = Some s → s ≠ "" →
        (getMenuPath dynamicMenus (menu_id m)).1 = "/" +:+ s)
  ∧ (menu_slug m = None ∨ menu_slug m = Some "" →
        (getMenuPath dynamicMenus (menu_id m)).1
        = "/dynamic-menu/" +:+ menu_id m)
  ∧ (∀ a b, menu_slug m = Some a → a ≠ "" → b ≠ "" →
        (getMenuPath dynamicMenus (menu_id m)).1 = "/" +:+ a
        ∧ (getMenuPath (rename_slug (menu_id m) b dynamicMenus) (menu_id m)).1
          = "/" +:+ b)
  ∧ (∀ dynamicTasks task, menu_id m ≠ "" →
        navigateToTask dynamicMenus dynamicTasks ("dynamic-" +:+ task)
                       (Some (menu_id m))
        = Some (getMenuPath dynamicMenus (menu_id m)).1).
Proof.
  intros Hin Hnd.
  assert (Hslug : ∀ s, menu_slug m = Some s → s ≠ "" →
                       (getMenuPath dynamicMenus (menu_id m)).1 = "/" +:+ s).
  { intros s Hs Hne. rewrite getMenuPath_present by done. simpl.
    by rewrite Hs, str_or_nonempty. }
  split; [exact Hslug |]. split; [| split].
  - intros Hs. rewrite getMenuPath_present by done. simpl.
    by destruct Hs as [-> | ->].
  - intros a b Ha Hane Hbne. split; [by apply Hslug |].
    set (m' := set_slug (menu_id m) b m).
    assert (Hid : menu_id m' = menu_id m).
    { unfold m', set_slug. by case_bool_decide. }
    assert (Hb : menu_slug m' = Some b).
    { unfold m', set_slug. by rewrite bool_decide_eq_true_2. }
    pose proof (getMenuPath_present (rename_slug (menu_id m) b dynamicMenus) m')
      as Hpath.
    rewrite Hid, Hb, str_or_nonempty in Hpath by done.
    rewrite Hpath; [done | |].
    + unfold rename_slug. by apply list_elem_of_fmap_2.
    + by rewrite rename_slug_ids.
  - intros dynamicTasks task Hid. by apply navigateToTask_provided.
Qed.

(** C6, as amended.  When the menu id is absent from the directory,
    [getMenuPath] returns the fallback path ["/tongquan"] without raising;
    the only trace of the missing target is one console warning, and nothing
    but the path is handed to the caller. *)
Theorem getMenuPath_deleted (dynamicMenus : list Menu) (menuId : string) :
  menuId ∉ menu_id <$> dynamicMenus →
  getMenuPath dynamicMenus menuId
  = ("/tongquan", ["⚠️ [MENU PATH] Menu not found: " +:+ menuId]).
Proof.
  intros Hnot. unfold getMenuPath. by rewrite find_menu_absent.
Qed.

End DirectoryFacts.

(** ** The router *)

Module RouterFacts.
Import Directory Router DirectoryFacts.

Lemma dynamicRoute_dom (m : Menu) :
  dom (dynamicRoute m) = ({[ "layout"; "section"; "menuId"; "menuName" ]} : gset string).
Proof.
  unfold dynamicRoute. rewrite !dom_insert_L, dom_empty_L. set_solver.
Qed.

Lemma dynamicRoute_fields (m : Menu) :
  dynamicRoute m !! "layout" = Some (VStr "app")
  ∧ dynamicRoute m !! "section" = Some (VStr "dynamic-menu")
  ∧ dynamicRoute m !! "menuId" = Some (VStr (menu_id m))
  ∧ dynamicRoute m !! "menuName" = Some (VStr (menu_name m))
  ∧ dynamicRoute m !! "slug" = None.
Proof. unfold dynamicRoute. repeat split; by simplify_map_eq. Qed.

(** The id-based path of a menu always contains a slash. *)
Lemma id_path_has_slash (menuId : string) :
  has_char slash ("dynamic-menu/" +:+ menuId) = true.
Proof. reflexivity. Qed.

Lemma drop_leading_slash (s : string) : drop_chars 1 ("/" +:+ s) = s.
Proof. reflexivity. Qed.

(** Unfolding of the predicate of the dynamic lookup. *)
Lemma matches_segment_true (seg : string) (m : Menu) :
  matches_segment seg m = true ↔
  menu_type m = "task-list"
  ∧ (menu_slug m = Some seg ∨ "dynamic-menu/" +:+ menu_id m = seg).
Proof.
  unfold matches_segment.
  rewrite andb_true_iff, orb_true_iff, !bool_decide_eq_true. tauto.
Qed.

Lemma matches_segment_type (seg : string) (m : Menu) :
  menu_type m ≠ "task-list" → matches_segment seg m = false.
Proof.
  intros Hty. unfold matches_segment. by rewrite bool_decide_eq_false_2.
Qed.

(** An element failing the predicate can be removed without changing what
    [find] returns. *)
Lemma find_skip {A} (f : A → bool) (before after : list A) (x : A) :
  f x = false → List.find f (before ++ x :: after) = List.find f (before ++ after).
Proof.
  intros Hfx. induction before as [|y before IH]; simpl.
  - by rewrite Hfx.
  - by destruct (f y).
Qed.

Section Facts.

Variable normalizeRoutePath : string → string.
Variable config : gmap string Route.
Variable defaultRoute : Route.

Local Abbreviation resolve' := (resolve normalizeRoutePath config defaultRoute).

(** C2.  When the normalized path is a key of the static route table,
    [resolve] returns that static route under the normalized path, whatever
    the menu directory holds: the table is consulted before any menu. *)
Theorem resolve_static_precedence (dynamicMenus : list Menu) (p : string)
    (staticRoute : Route) :
  config !! normalizeRoutePath p = Some staticRoute →
  resolve' dynamicMenus p = mkResolved (normalizeRoutePath p) staticRoute false.
Proof.
  intros Hcfg. unfold resolve. by rewrite Hcfg.
Qed.

(** C3.  Let [m] be a task-list menu of the directory with slug [s], where
    [s] is a path segment (no slash), no other task-list menu has slug [s],
    ["/s"] is already in normal form and is not a static route.  Then
    resolving ["/s"] gives the dynamic route of [m]: it carries [m]'s id as
    [menuId] and [m]'s name as [menuName], and its only other properties
    are [layout] and [section] - no slug is stored in it. *)
Theorem resolve_task_list_slug (dynamicMenus : list Menu) (m : Menu) (s : string) :
  m ∈ dynamicMenus →
  menu_type m = "task-list" →
  menu_slug m = Some s →
  has_char slash s = false →
  (∀ m', m' ∈ dynamicMenus → menu_type m' = "task-list" →
         menu_slug m' = Some s → m' = m) →
  normalizeRoutePath ("/" +:+ s) = "/" +:+ s →
  config !! ("/" +:+ s) = None →
  resolve' dynamicMenus ("/" +:+ s) = mkResolved ("/" +:+ s) (dynamicRoute m) false
  ∧ route (resolve' dynamicMenus ("/" +:+ s)) !! "section" = Some (VStr "dynamic-menu")
  ∧ route (resolve' dynamicMenus ("/" +:+ s)) !! "menuId" = Some (VStr (menu_id m))
  ∧ route (resolve' dynamicMenus ("/" +:+ s)) !! "menuName" = Some (VStr (menu_name m))
  ∧ route (resolve' dynamicMenus ("/" +:+ s)) !! "slug" = None
  ∧ dom (route (resolve' dynamicMenus ("/" +:+ s)))
    = ({[ "layout"; "section"; "menuId"; "menuName" ]} : gset string).
Proof.
  intros Hin Hty Hslug Hseg Huniq Hnorm Hcfg.
  assert (Hres : resolve' dynamicMenus ("/" +:+ s)
                 = mkResolved ("/" +:+ s) (dynamicRoute m) false).
  { unfold resolve. rewrite Hnorm, Hcfg, drop_leading_slash.
    rewrite (find_unique _ _ m); [done | done | |].
    - apply matches_segment_true. auto.
    - intros m' Hin' [Hty' [Hs' | Halias]]%matches_segment_true.
      + by apply Huniq.
      + rewrite <- Halias, id_path_has_slash in Hseg. discriminate. }
  rewrite Hres. simpl.
  destruct (dynamicRoute_fields m) as (_ & ? & ? & ? & ?).
  by rewrite dynamicRoute_dom.
Qed.

(** C4.  A menu whose type is not ['task-list'] is never the entry selected
    by the dynamic lookup, whatever its slug and whatever the requested
    segment, and its presence in the directory never changes what [resolve]
    returns. *)
Theorem resolve_excludes_other_types (m : Menu) :
  menu_type m ≠ "task-list" →
  (∀ seg dynamicMenus, List.find (matches_segment seg) dynamicMenus ≠ Some m)
  ∧ (∀ before after p,
       resolve' (before ++ m :: after) p = resolve' (before ++ after) p).
Proof.
  intros Hty. split.
  - intros seg dynamicMenus Hfind.
    apply find_some_elem in Hfind as [_ Hm].
    by rewrite matches_segment_type in Hm.
  - intros before after p. unfold resolve.
    destruct (config !! normalizeRoutePath p); [done |].
    by rewrite find_skip by by apply matches_segment_type.
Qed.


(** What [slice(1)] removes from such a path is the slash. *)
Lemma leading_slash_segment (p : string) :
  starts_with "/" p = true → p = "/" +:+ drop_chars 1 p.
Proof.
  destruct p as [|c p]; [done |]. cbn [starts_with drop_chars].
  destruct (Ascii.eqb_spec (Ascii.Ascii true true true true false true false false) c)
    as [<- | ?]; [reflexivity | done].
Qed.


End Facts.

End RouterFacts.

(** ** Menu synchronisation *)

Module SyncFacts.
Import Directory Router Sync.

(** The refill loop appends the documents of the snapshot, in order. *)
Lemma refill_spec (snapshot : list MenuDoc) (acc : list Menu) (nav : string) :
  fold_left (λ pg doc, mkPage (dynamicMenus pg ++ [menu_of_doc doc])
                              (main_navigation pg))
            snapshot (mkPage acc nav)
  = mkPage (acc ++ (menu_of_doc <$> snapshot)) nav.
Proof.
  revert acc. induction snapshot as [|doc snapshot IH]; intros acc; simpl.
  - by rewrite app_nil_r.
  - rewrite IH. by rewrite <- app_assoc.
Qed.

(** After a snapshot, the page holds exactly the menus of the snapshot and the
    sidebar rendered from them. *)
Lemma onSnapshot_spec (snapshot : list MenuDoc) (page : Page) :
  onSnapshot snapshot page
  = renderSidebarDynamic (mkPage (menu_of_doc <$> snapshot) (main_navigation page)).
Proof. unfold onSnapshot. by rewrite refill_spec. Qed.

Lemma renderSidebarDynamic_menus_only (p q : Page) :
  dynamicMenus p = dynamicMenus q →
  renderSidebarDynamic p = renderSidebarDynamic q.
Proof. intros Heq. unfold renderSidebarDynamic. by rewrite Heq. Qed.

(** C7.  Delivering the same snapshot a second time leaves the page as the
    first delivery left it: the same [dynamicMenus], the same sidebar HTML.
    The sidebar is a function of [dynamicMenus] alone, the state before a
    delivery does not show in the state after it, and every path resolves
    after the second delivery as it did after the first. *)
Theorem onSnapshot_idempotent (snapshot : list MenuDoc) (page : Page) :
  onSnapshot snapshot (onSnapshot snapshot page) = onSnapshot snapshot page
  ∧ main_navigation (onSnapshot snapshot (onSnapshot snapshot page))
    = main_navigation (onSnapshot snapshot page)
  ∧ (∀ p q, dynamicMenus p = dynamicMenus q →
            main_navigation (renderSidebarDynamic p)
            = main_navigation (renderSidebarDynamic q))
  ∧ (∀ page', onSnapshot snapshot page' = onSnapshot snapshot page)
  ∧ (∀ normalizeRoutePath config defaultRoute currentPath,
       resolve normalizeRoutePath config defaultRoute
               (dynamicMenus (onSnapshot snapshot (onSnapshot snapshot page)))
               currentPath
       = resolve normalizeRoutePath config defaultRoute
                 (dynamicMenus (onSnapshot snapshot page)) currentPath).
Proof.
  assert (Hany : ∀ page', onSnapshot snapshot page' = onSnapshot snapshot page).
  { intros page'. rewrite !onSnapshot_spec.
    by apply renderSidebarDynamic_menus_only. }
  assert (Hidem : onSnapshot snapshot (onSnapshot snapshot page)
                  = onSnapshot snapshot page) by apply Hany.
  split; [exact Hidem |]. split; [by rewrite Hidem |].
  split; [| split; [exact Hany |]].
  - intros p q Heq. by rewrite (renderSidebarDynamic_menus_only p q).
  - intros. by rewrite Hidem.
Qed.

End SyncFacts.

(** ** The activity recorder *)

Module RecorderFacts.
Import Recorder.

Lemma activityEntry_dom (args : ActivityArgs) (now : Z) :
  dom (activityEntry args now)
  = ({[ "id"; "taskId"; "taskName"; "phase"; "status"; "completedAt";
        "updatedAt"; "performedBy"; "menuId" ]} : gset string).
Proof.
  unfold activityEntry. rewrite !dom_insert_L, dom_empty_L. set_solver.
Qed.

Lemma activityEntry_menuId (args : ActivityArgs) (now : Z) :
  activityEntry args now !! "menuId" = Some (or_else (arg_menuId args) VNull).
Proof. unfold activityEntry. by simplify_map_eq. Qed.

(** Every action handler passes the id of the menu it acts in. *)
Lemma action_args_menuId action taskId taskName phaseLabel timestamp performer menuId :
  arg_menuId (action_args action taskId taskName phaseLabel timestamp performer menuId)
  = VStr menuId.
Proof. by destruct action. Qed.

(** C8.  For each of the four task actions (complete, comment, edit link,
    delete result) performed in a menu with a non-empty id, the recorder puts
    one new entry in front of the log; the entry stores that menu id under
    [menuId], its properties are exactly [id], [taskId], [taskName], [phase],
    [status], [completedAt], [updatedAt], [performedBy] and [menuId], and so
    it has no [slug] and no [path] property. *)
Theorem recordActivityEntry_stores_menuId (action : Action)
    (taskId taskName : string) (phaseLabel timestamp performer : JSVal)
    (menuId : string) (now : Z) (activityLogs : list (gmap string JSVal)) :
  menuId ≠ "" →
  ∃ entry,
    recordActivityEntry
      (action_args action taskId taskName phaseLabel timestamp performer menuId)
      now activityLogs
    = entry :: activityLogs
    ∧ entry !! "menuId" = Some (VStr menuId)
    ∧ dom entry
      = ({[ "id"; "taskId"; "taskName"; "phase"; "status"; "completedAt";
            "updatedAt"; "performedBy"; "menuId" ]} : gset string)
    ∧ entry !! "slug" = None
    ∧ entry !! "path" = None.
Proof.
  intros Hid. eexists. split; [reflexivity |].
  rewrite activityEntry_menuId, action_args_menuId, activityEntry_dom.
  assert (Hor : or_else (VStr menuId) VNull = VStr menuId).
  { unfold or_else. simpl. by destruct (String.eqb_spec menuId ""). }
  rewrite Hor. split; [done |]. split; [done |].
  unfold activityEntry. split; by simplify_map_eq.
Qed.

End RecorderFacts.

(** ** Completion status *)

Module TaskItemFacts.
Import TaskItem StringFacts.

(** The ASCII forms of [toLowerCase] and [trim]. *)
Lemma rev_app_append (s1 s2 : string) :
  String.rev_app s1 s2 = String.rev s1 +:+ s2.
Proof.
  unfold String.rev. revert s2. induction s1 as [|c s1 IH]; intros s2; [done |].
  simpl. rewrite (IH (String c "")), IH, append_assoc. done.
Qed.

Lemma rev_append (s1 s2 : string) :
  String.rev (s1 +:+ s2) = String.rev s2 +:+ String.rev s1.
Proof.
  induction s1 as [|c s1 IH].
  - change ("" +:+ s2) with s2. by rewrite append_empty_r.
  - change (String c s1 +:+ s2) with (String c (s1 +:+ s2)).
    unfold String.rev at 1 3. simpl.
    rewrite !rev_app_append, IH, append_assoc. done.
Qed.

Lemma lower_append (s1 s2 : string) :
  toLowerCase_ascii (s1 +:+ s2) = toLowerCase_ascii s1 +:+ toLowerCase_ascii s2.
Proof.
  induction s1 as [|c s1 IH]; [done |].
  change (String c s1 +:+ s2) with (String c (s1 +:+ s2)). simpl.
  rewrite IH. done.
Qed.

Lemma lower_ascii_byte (c : Ascii.ascii) :
  (Ascii.nat_of_ascii c < 128)%nat →
  (Ascii.nat_of_ascii (lower_ascii c) < 128)%nat.
Proof.
  intros Hc. unfold lower_ascii.
  destruct (Nat.leb_spec 65 (Ascii.nat_of_ascii c)); simpl; [| done].
  destruct (Nat.leb_spec (Ascii.nat_of_ascii c) 90); simpl; [| done].
  rewrite Ascii.nat_ascii_embedding; lia.
Qed.

Lemma lower_ascii_only (s : string) :
  ascii_only s = true → ascii_only (toLowerCase_ascii s) = true.
Proof.
  induction s as [|c s IH]; [done |]. simpl.
  rewrite !andb_true_iff, !Nat.ltb_lt. intros [Hc Hs].
  split; [by apply lower_ascii_byte | by apply IH].
Qed.

Lemma is_space_byte (c : Ascii.ascii) :
  is_space c = true → (Ascii.nat_of_ascii c ≤ 32)%nat.
Proof.
  unfold is_space. rewrite orb_true_iff, andb_true_iff, !Nat.leb_le, Nat.eqb_eq. lia.
Qed.

Lemma lower_space (c : Ascii.ascii) : is_space c = true → lower_ascii c = c.
Proof.
  intros Hc%is_space_byte. unfold lower_ascii.
  destruct (Nat.leb_spec 65 (Ascii.nat_of_ascii c)); [lia | done].
Qed.

Lemma lower_blank (s : string) : blank s = true → toLowerCase_ascii s = s.
Proof.
  induction s as [|c s IH]; [done |]. simpl.
  rewrite andb_true_iff. intros [Hc Hs]. by rewrite lower_space, IH.
Qed.

Lemma blank_ascii_only (s : string) : blank s = true → ascii_only s = true.
Proof.
  induction s as [|c s IH]; [done |]. simpl.
  rewrite !andb_true_iff, Nat.ltb_lt. intros [Hc%is_space_byte Hs].
  split; [lia | by apply IH].
Qed.

Lemma ascii_only_append (s1 s2 : string) :
  ascii_only (s1 +:+ s2) = ascii_only s1 && ascii_only s2.
Proof.
  induction s1 as [|c s1 IH]; [done |].
  change (String c s1 +:+ s2) with (String c (s1 +:+ s2)). simpl.
  by rewrite IH, andb_assoc.
Qed.

Lemma blank_append (s1 s2 : string) :
  blank (s1 +:+ s2) = blank s1 && blank s2.
Proof.
  induction s1 as [|c s1 IH]; [done |].
  change (String c s1 +:+ s2) with (String c (s1 +:+ s2)). simpl.
  by rewrite IH, andb_assoc.
Qed.

Lemma ascii_only_rev (s : string) : ascii_only (String.rev s) = ascii_only s.
Proof.
  induction s as [|c s IH]; [done |].
  change (String c s) with (String c "" +:+ s) at 1.
  rewrite rev_append, ascii_only_append, IH. simpl.
  by rewrite andb_true_r, andb_comm.
Qed.

Lemma blank_rev (s : string) : blank (String.rev s) = blank s.
Proof.
  induction s as [|c s IH]; [done |].
  change (String c s) with (String c "" +:+ s) at 1.
  rewrite rev_append, blank_append, IH. simpl.
  by rewrite andb_true_r, andb_comm.
Qed.

Lemma trim_start_ascii_only (s : string) :
  ascii_only s = true → ascii_only (trim_start s) = true.
Proof.
  induction s as [|c s IH]; [done |]. intros Hs. simpl.
  destruct (is_space c); [| done].
  simpl in Hs. apply andb_true_iff in Hs as [_ Hs]. by apply IH.
Qed.

Lemma trim_ascii_only (s : string) :
  ascii_only s = true → ascii_only (trim_ascii s) = true.
Proof.
  intros Hs. unfold trim_ascii. rewrite ascii_only_rev.
  apply trim_start_ascii_only. rewrite ascii_only_rev.
  by apply trim_start_ascii_only.
Qed.

Lemma trim_start_blank (s : string) : blank s = true → trim_start s = "".
Proof.
  induction s as [|c s IH]; [done |]. simpl.
  rewrite andb_true_iff. intros [-> Hs]. by apply IH.
Qed.

Lemma trim_start_lead (pre s : string) :
  blank pre = true → trim_start (pre +:+ s) = trim_start s.
Proof.
  induction pre as [|c pre IH]; [done |]. simpl.
  rewrite andb_true_iff. intros [Hc Hpre].
  change (String c pre +:+ s) with (String c (pre +:+ s)). simpl.
  rewrite Hc. by apply IH.
Qed.

Lemma trim_start_trail (s post : string) :
  blank post = true →
  trim_start (s +:+ post)
  = match trim_start s with
    | EmptyString => EmptyString
    | String _ _ => trim_start s +:+ post
    end.
Proof.
  intros Hpost. induction s as [|c s IH].
  - change ("" +:+ post) with post. by rewrite trim_start_blank.
  - change (String c s +:+ post) with (String c (s +:+ post)). simpl.
    by destruct (is_space c).
Qed.

(** White space around a text does not change what [trim] leaves. *)
Lemma trim_ascii_padding (pre s post : string) :
  blank pre = true → blank post = true →
  trim_ascii (pre +:+ s +:+ post) = trim_ascii s.
Proof.
  intros Hpre Hpost. unfold trim_ascii.
  rewrite trim_start_lead by done. rewrite trim_start_trail by done.
  destruct (trim_start s) as [|c rest] eqn:Hs; [done |].
  rewrite rev_append, trim_start_lead; [done |]. by rewrite blank_rev.
Qed.

Section Facts.

Variable toLowerCase : string → string.
Variable trim : string → string.

Local Abbreviation normalizeStatus' := (normalizeStatus toLowerCase trim).
Local Abbreviation status_completed' := (status_completed toLowerCase trim).
Local Abbreviation status_accepts' := (status_accepts toLowerCase trim).
Local Abbreviation isTaskCompleted' := (isTaskCompleted toLowerCase trim).

Lemma normalizeStatus_text (s : string) :
  s ≠ "" → normalizeStatus' (VStr s) = Ok (trim (toLowerCase s)).
Proof.
  intros Hs. unfold normalizeStatus. simpl.
  by destruct (String.eqb_spec s "").
Qed.

Lemma status_accepts_falsy (v : JSVal) :
  truthy v = false → status_accepts' v = false.
Proof.
  destruct v; simpl; try done.
  intros Hs. apply negb_false_iff in Hs. by rewrite Hs.
Qed.

(** On a textual status, the check of FALLBACK 3 and 4 cannot raise and
    says what [status_accepts] says. *)
Lemma status_completed_text (o : gmap string JSVal) :
  status_is_text o →
  status_completed' o = Ok (status_accepts' (prop o "status")).
Proof.
  unfold status_completed. intros [Hfalsy | [s Hs]].
  - by rewrite Hfalsy, status_accepts_falsy.
  - rewrite Hs. simpl. destruct (String.eqb_spec s "") as [-> | Hne]; [done |].
    simpl. by rewrite normalizeStatus_text.
Qed.

Lemma status_accepts_iff (s : string) :
  status_accepts' (VStr s) = true ↔
  s ≠ "" ∧ trim (toLowerCase s)
           ∈ ["completed"; "hoàn thành"; "đã hoàn thành"; "done"; "xong"].
Proof.
  simpl. rewrite andb_true_iff, negb_true_iff, bool_decide_eq_true.
  unfold completedVariations.
  destruct (String.eqb_spec s ""); split; intros [? ?]; done.
Qed.

(** On ASCII text the status check is decided by the ASCII forms of the two
    built-ins. *)
Lemma status_accepts_ascii (s : string) :
  (∀ s, ascii_only s = true → toLowerCase s = toLowerCase_ascii s) →
  (∀ s, ascii_only s = true → trim s = trim_ascii s) →
  ascii_only s = true →
  status_accepts' (VStr s)
  = bool_decide (trim_ascii (toLowerCase_ascii s) ∈ completedVariations).
Proof.
  intros Hlower Htrim Hs. simpl.
  rewrite (Hlower s Hs), (Htrim _ (lower_ascii_only s Hs)).
  destruct (String.eqb_spec s "") as [-> | Hne]; [| done].
  vm_compute. reflexivity.
Qed.

Lemma ascii_variations (s : string) :
  ascii_only s = true →
  s ∈ completedVariations ↔ s ∈ ["completed"; "done"; "xong"].
Proof.
  intros Hs. unfold completedVariations. split.
  - intros H. apply elem_of_cons in H as [-> | H]; [by left |].
    apply elem_of_cons in H as [-> | H]; [vm_compute in Hs; discriminate Hs |].
    apply elem_of_cons in H as [-> | H]; [vm_compute in Hs; discriminate Hs |].
    by right.
  - intros H. apply elem_of_cons in H as [-> | H]; [by left |].
    by do 3 right.
Qed.

(** C9.  With statuses that are strings (or falsy), [isTaskCompleted]
    returns [true] as soon as [task.completionLink] or [taskState.link] is
    truthy, whatever the completed flags and the statuses are.  In general
    it returns [true] exactly when one of the three flags is [true], or one
    of the two statuses is accepted, or one of the two links is truthy; a
    status is accepted when it is a non-empty string whose lower-cased and
    trimmed form - what [normalizeStatus] returns - is one of ['completed'],
    ['hoàn thành'], ['đã hoàn thành'], ['done'], ['xong'].  On ASCII text,
    where the two built-ins lower [A]-[Z] and remove the ASCII white space
    at both ends, a status is accepted exactly when its lowered, trimmed
    form is ['completed'], ['done'] or ['xong']; two statuses that differ
    in letter case only are treated alike; and white space around a status
    changes nothing. *)
Theorem isTaskCompleted_link_and_status (task taskState : gmap string JSVal) :
  status_is_text task → status_is_text taskState →
  (truthy (prop task "completionLink") = true
   ∨ truthy (prop taskState "link") = true →
   isTaskCompleted' task taskState = Ok true)
  ∧ isTaskCompleted' task taskState
    = Ok (is_true (prop taskState "completed")
          || is_true (prop task "isCompleted")
          || is_true (prop task "completed")
          || status_accepts' (prop task "status")
          || status_accepts' (prop taskState "status")
          || truthy (prop task "completionLink")
          || truthy (prop taskState "link"))
  ∧ (∀ s, s ≠ "" → normalizeStatus' (VStr s) = Ok (trim (toLowerCase s)))
  ∧ (∀ s, status_accepts' (VStr s) = true ↔
          s ≠ "" ∧ trim (toLowerCase s)
                   ∈ ["completed"; "hoàn thành"; "đã hoàn thành"; "done"; "xong"])
  ∧ ((∀ s, ascii_only s = true → toLowerCase s = toLowerCase_ascii s) →
     (∀ s, ascii_only s = true → trim s = trim_ascii s) →
     (∀ s, ascii_only s = true →
        status_accepts' (VStr s) = true ↔
        trim_ascii (toLowerCase_ascii s) ∈ ["completed"; "done"; "xong"])
     ∧ (∀ s1 s2, ascii_only s1 = true → ascii_only s2 = true →
          toLowerCase_ascii s1 = toLowerCase_ascii s2 →
          status_accepts' (VStr s1) = status_accepts' (VStr s2))
     ∧ (∀ pre s post, blank pre = true → blank post = true →
          ascii_only s = true →
          status_accepts' (VStr (pre +:+ s +:+ post)) = status_accepts' (VStr s))).
Proof.
  intros Htask Hstate.
  assert (Hall : isTaskCompleted' task taskState
    = Ok (is_true (prop taskState "completed")
          || is_true (prop task "isCompleted")
          || is_true (prop task "completed")
          || status_accepts' (prop task "status")
          || status_accepts' (prop taskState "status")
          || truthy (prop task "completionLink")
          || truthy (prop taskState "link"))).
  { unfold isTaskCompleted.
    rewrite (status_completed_text task Htask).
    rewrite (status_completed_text taskState Hstate).
    unfold or_else. simpl.
    destruct (is_true (prop taskState "completed")); [done |].
    destruct (is_true (prop task "isCompleted")); [done |].
    destruct (is_true (prop task "completed")); [done |].
    destruct (status_accepts' (prop task "status")); [done |].
    destruct (status_accepts' (prop taskState "status")); [done |].
    simpl.
    destruct (truthy (prop task "completionLink")) eqn:Hlink; simpl.
    - by rewrite Hlink.
    - by destruct (truthy (prop taskState "link")). }
  split; [| split; [exact Hall | split; [| split]]].
  - intros Hlink. rewrite Hall. f_equal.
    destruct Hlink as [-> | ->]; by rewrite ?orb_true_r.
  - apply normalizeStatus_text.
  - apply status_accepts_iff.
  - intros Hlower Htrim. split; [| split].
    + intros s Hs. rewrite status_accepts_ascii by done.
      rewrite bool_decide_eq_true. apply ascii_variations.
      by apply trim_ascii_only, lower_ascii_only.
    + intros s1 s2 Hs1 Hs2 Hsame.
      rewrite !status_accepts_ascii by done. by rewrite Hsame.
    + intros pre s post Hpre Hpost Hs.
      rewrite !status_accepts_ascii; [| done | done | done | done | done |].
      * rewrite !lower_append, (lower_blank pre Hpre), (lower_blank post Hpost).
        by rewrite trim_ascii_padding.
      * rewrite !ascii_only_append, Hs, !blank_ascii_only by done. done.
Qed.

End Facts.

End TaskItemFacts.

(** ** Reopening a task *)

Module TaskListFacts.
Import TaskList.

(** C10.  When [taskState] has an entry for the task, [handleTaskEdit] sets
    the entry's [completed] to [false], its [completedAt] to [null] and its
    [updatedAt] to the current time, and leaves every other property of the
    entry - the saved [link] and the [comments] among them - and every other
    entry of [taskState] as they were. *)
Theorem handleTaskEdit_frame (taskId now : string)
    (taskState : gmap string (gmap string JSVal)) (entry : gmap string JSVal) :
  taskState !! taskId = Some entry →
  ∃ entry',
    handleTaskEdit taskId now taskState !! taskId = Some entry'
    ∧ entry' !! "completed" = Some (VBool false)
    ∧ entry' !! "completedAt" = Some VNull
    ∧ entry' !! "updatedAt" = Some (VStr now)
    ∧ (∀ field, field ∉ ["completed"; "completedAt"; "updatedAt"] →
                entry' !! field = entry !! field)
    ∧ entry' !! "link" = entry !! "link"
    ∧ entry' !! "comments" = entry !! "comments"
    ∧ (∀ other, other ≠ taskId →
                handleTaskEdit taskId now taskState !! other = taskState !! other).
Proof.
  intros Hentry. unfold handleTaskEdit, set_field. rewrite Hentry.
  rewrite !lookup_alter_eq, Hentry. simpl.
  eexists. split; [reflexivity |].
  repeat split; try by simplify_map_eq.
  - intros field Hfield.
    rewrite !not_elem_of_cons in Hfield. destruct Hfield as (? & ? & ? & _).
    by rewrite !lookup_insert_ne.
  - intros other Hother. by rewrite !lookup_alter_ne.
Qed.

End TaskListFacts.

(** ** Worked scenarios *)

Module Scenarios.
Import Directory Router Sync Recorder TaskItem TaskList Samples.
Import DirectoryFacts RouterFacts SyncFacts RecorderFacts TaskItemFacts TaskListFacts.

Local Abbreviation resolve0 := (resolve keepPath staticConfig coverRoute).

(** The scenario of the notes: the slug of [m1] goes from [giaidoan1] to
    [giai-doan-1]. *)
Example resolve_before_rename :
  resolve0 [phase1] "/giaidoan1"
  = mkResolved "/giaidoan1" (dynamicRoute phase1) false.
Proof. vm_compute. reflexivity. Qed.

Example resolve_old_slug_after_rename :
  resolve0 (rename_slug "m1" "giai-doan-1" [phase1]) "/giaidoan1"
  = mkResolved "/" coverRoute true.
Proof. vm_compute. reflexivity. Qed.

Example resolve_new_slug_after_rename :
  route (resolve0 (rename_slug "m1" "giai-doan-1" [phase1]) "/giai-doan-1") !! "menuId"
  = Some (VStr "m1").
Proof. vm_compute. reflexivity. Qed.

Example resolve_external_link_slug :
  resolve0 [docs_link] "/docs" = mkResolved "/" coverRoute true.
Proof. vm_compute. reflexivity. Qed.

Example isTaskCompleted_upper_case_status :
  isTaskCompleted toLowerCase_ascii trim_ascii {[ "status" := VStr "  DONE " ]} ∅
  = Ok true.
Proof. vm_compute. reflexivity. Qed.

Example isTaskCompleted_other_status :
  isTaskCompleted toLowerCase_ascii trim_ascii {[ "status" := VStr "pending" ]} ∅
  = Ok false.
Proof. vm_compute. reflexivity. Qed.

(** C9 as stated fails on a status that is not a string: when no completed
    flag is [true], [normalizeStatus] raises on the number before the links
    are looked at, whatever the two built-ins do. *)
Lemma isTaskCompleted_numeric_status :
  truthy (prop numberedTask "completionLink") = true
  ∧ (∀ toLowerCase trim,
       isTaskCompleted toLowerCase trim numberedTask ∅
       = Throw "TypeError: status.toLowerCase is not a function")
  ∧ ¬ (∀ toLowerCase trim task taskState,
         truthy (prop task "completionLink") = true
         ∨ truthy (prop taskState "link") = true →
         isTaskCompleted toLowerCase trim task taskState = Ok true).
Proof.
  assert (Hraise : ∀ toLowerCase trim,
            isTaskCompleted toLowerCase trim numberedTask ∅
            = Throw "TypeError: status.toLowerCase is not a function").
  { intros toLowerCase trim. vm_compute. reflexivity. }
  split; [vm_compute; reflexivity |]. split; [exact Hraise |].
  intros Hclaim.
  specialize (Hclaim toLowerCase_ascii trim_ascii numberedTask ∅).
  rewrite Hraise in Hclaim. discriminate Hclaim. left. vm_compute. reflexivity.
Qed.

Lemma sample_ids_distinct : NoDup (menu_id <$> [phase1; docs_link; plain_link]).
Proof. apply (bool_decide_unpack _). vm_compute. exact I. Defined.

(** C1 as stated fails on a menu without a slug: the path is the id-based
    one, not ["/"] followed by the (empty) slug. *)
Lemma getMenuPath_without_slug :
  (getMenuPath [plain_link] "x2").1 = "/dynamic-menu/x2"
  ∧ ¬ (∀ dynamicMenus m,
         m ∈ dynamicMenus → NoDup (menu_id <$> dynamicMenus) →
         (getMenuPath dynamicMenus (menu_id m)).1
         = "/" +:+ default "" (menu_slug m)).
Proof.
  split; [reflexivity |]. intros Hclaim.
  specialize (Hclaim [plain_link] plain_link).
  assert (Hpath : (getMenuPath [plain_link] (menu_id plain_link)).1 = "/").
  { apply Hclaim; [by left |]. apply (bool_decide_unpack _). vm_compute. exact I. }
  vm_compute in Hpath. discriminate Hpath.
Qed.

Lemma getMenuPath_live_slug_witness :
  phase1 ∈ [phase1; docs_link; plain_link]
  ∧ NoDup (menu_id <$> [phase1; docs_link; plain_link])
  ∧ (getMenuPath [phase1; docs_link; plain_link] "m1").1 = "/giaidoan1"
  ∧ (getMenuPath (rename_slug "m1" "giai-doan-1" [phase1; docs_link; plain_link])
                 "m1").1 = "/giai-doan-1".
Proof.
  assert (Hin : phase1 ∈ [phase1; docs_link; plain_link]) by left.
  split; [exact Hin |]. split; [exact sample_ids_distinct |].
  destruct (getMenuPath_live_slug [phase1; docs_link; plain_link] phase1 Hin
              sample_ids_distinct) as (_ & _ & Hrename & _).
  apply (Hrename "giaidoan1" "giai-doan-1"); [reflexivity | discriminate | discriminate].
Defined.

(** C6 as stated fails: for a deleted menu the caller gets the path
    ["/tongquan"] and nothing else - the same value it gets for a live menu
    whose slug is [tongquan] - so no function of the returned value tells a
    deleted target from a live one; [navigateToTask], given the id of a
    deleted menu and no menu holding the task, does not navigate at all. *)
Lemma getMenuPath_deleted_not_signalled :
  ("m9" ∉ menu_id <$> delete_menu "m9" [overview_twin])
  ∧ (getMenuPath (delete_menu "m9" [overview_twin]) "m9").1 = "/tongquan"
  ∧ (getMenuPath [overview_twin] "m9").1 = "/tongquan"
  ∧ navigateToTask (delete_menu "m9" [overview_twin]) [] "dynamic-t1" (Some "m9") = None
  ∧ ¬ (∃ signal : string → bool, ∀ dynamicMenus menuId,
         signal (getMenuPath dynamicMenus menuId).1 = true
         ↔ menuId ∉ menu_id <$> dynamicMenus).
Proof.
  split; [apply delete_menu_absent |].
  split; [reflexivity |]. split; [reflexivity |]. split; [reflexivity |].
  intros [signal Hsignal].
  assert (Hgone : signal "/tongquan" = true).
  { apply (Hsignal [] "m9"). apply not_elem_of_nil. }
  apply (Hsignal [overview_twin] "m9") in Hgone. apply Hgone. by left.
Qed.

Lemma getMenuPath_deleted_witness :
  ("m1" ∉ menu_id <$> delete_menu "m1" [phase1; docs_link])
  ∧ getMenuPath (delete_menu "m1" [phase1; docs_link]) "m1"
    = ("/tongquan", ["⚠️ [MENU PATH] Menu not found: m1"]).
Proof.
  assert (Hgone : "m1" ∉ (menu_id <$> delete_menu "m1" [phase1; docs_link])).
  { apply (bool_decide_unpack _). vm_compute. exact I. }
  split; [exact Hgone |].
  apply (getMenuPath_deleted (delete_menu "m1" [phase1; docs_link]) "m1" Hgone).
Defined.

Lemma resolve_static_precedence_witness :
  staticConfig !! keepPath "/tongquan" = Some {[ "layout" := VStr "app" ]}
  ∧ resolve0 [overview_twin; phase1] "/tongquan"
    = mkResolved "/tongquan" {[ "layout" := VStr "app" ]} false.
Proof.
  assert (Hcfg : staticConfig !! keepPath "/tongquan"
                 = Some ({[ "layout" := VStr "app" ]} : Route)).
  { vm_compute. reflexivity. }
  split; [exact Hcfg |].
  apply (resolve_static_precedence keepPath staticConfig coverRoute
           [overview_twin; phase1] "/tongquan" _ Hcfg).
Defined.

Lemma resolve_task_list_slug_witness :
  phase1 ∈ [docs_link; phase1; plain_link]
  ∧ resolve0 [docs_link; phase1; plain_link] "/giaidoan1"
    = mkResolved "/giaidoan1" (dynamicRoute phase1) false
  ∧ route (resolve0 [docs_link; phase1; plain_link] "/giaidoan1") !! "menuId"
    = Some (VStr "m1")
  ∧ route (resolve0 [docs_link; phase1; plain_link] "/giaidoan1") !! "slug" = None.
Proof.
  assert (Hin : phase1 ∈ [docs_link; phase1; plain_link]) by (right; left).
  split; [exact Hin |].
  destruct (resolve_task_list_slug keepPath staticConfig coverRoute
              [docs_link; phase1; plain_link] phase1 "giaidoan1")
    as (Hres & _ & Hid & _ & Hslug & _).
  - exact Hin.
  - reflexivity.
  - reflexivity.
  - vm_compute. reflexivity.
  - intros m' Hm' Hty Hs.
    apply elem_of_cons in Hm' as [-> | Hm']; [discriminate Hty |].
    apply elem_of_cons in Hm' as [-> | Hm']; [reflexivity |].
    apply list_elem_of_singleton in Hm' as ->. discriminate Hty.
  - reflexivity.
  - vm_compute. reflexivity.
  - split; [exact Hres |]. split; [exact Hid | exact Hslug].
Defined.

Lemma resolve_excludes_other_types_witness :
  menu_type docs_link ≠ "task-list"
  ∧ List.find (matches_segment "docs") [docs_link; phase1] ≠ Some docs_link
  ∧ resolve0 ([phase1] ++ docs_link :: [plain_link]) "/docs"
    = resolve0 ([phase1] ++ [plain_link]) "/docs".
Proof.
  assert (Hty : menu_type docs_link ≠ "task-list") by discriminate.
  split; [exact Hty |].
  destruct (resolve_excludes_other_types keepPath staticConfig coverRoute
              docs_link Hty) as [Hfind Hsame].
  split; [apply Hfind | apply Hsame].
Defined.


Lemma recordActivityEntry_stores_menuId_witness :
  "m1" ≠ ""
  ∧ ∃ entry,
      recordActivityEntry
        (action_args CompleteTask "abc123" "Setup Database" (VStr "Giai Đoạn 1")
                     (VStr "2025-01-12T08:00:00.000Z") (VStr "admin") "m1")
        1736668800000 []
      = [entry]
      ∧ entry !! "menuId" = Some (VStr "m1")
      ∧ entry !! "slug" = None
      ∧ entry !! "path" = None.
Proof.
  assert (Hid : "m1" ≠ "") by discriminate.
  split; [exact Hid |].
  destruct (recordActivityEntry_stores_menuId CompleteTask "abc123"
              "Setup Database" (VStr "Giai Đoạn 1")
              (VStr "2025-01-12T08:00:00.000Z") (VStr "admin") "m1"
              1736668800000 [] Hid)
    as (entry & Hlog & Hmenu & _ & Hslug & Hpath).
  exists entry. split; [exact Hlog |]. split; [exact Hmenu |].
  split; [exact Hslug | exact Hpath].
Defined.

Lemma isTaskCompleted_link_and_status_witness :
  status_is_text {[ "status" := VStr "Pending" ]}
  ∧ status_is_text (<["completed" := VBool false]> completedState)
  ∧ isTaskCompleted toLowerCase_ascii trim_ascii
      {[ "status" := VStr "Pending" ]}
      (<["completed" := VBool false]> completedState)
    = Ok true
  ∧ status_accepts toLowerCase_ascii trim_ascii (VStr "  DONE ") = true
  ∧ status_accepts toLowerCase_ascii trim_ascii (VStr "Xong")
    = status_accepts toLowerCase_ascii trim_ascii (VStr "xONG")
  ∧ status_accepts toLowerCase_ascii trim_ascii (VStr "in progress") ≠ true.
Proof.
  assert (Htask : status_is_text {[ "status" := VStr "Pending" ]}).
  { right. exists "Pending". vm_compute. reflexivity. }
  assert (Hstate : status_is_text (<["completed" := VBool false]> completedState)).
  { left. vm_compute. reflexivity. }
  split; [exact Htask |]. split; [exact Hstate |].
  destruct (isTaskCompleted_link_and_status toLowerCase_ascii trim_ascii
              {[ "status" := VStr "Pending" ]}
              (<["completed" := VBool false]> completedState) Htask Hstate)
    as (Hlink & _ & _ & _ & Hascii).
  destruct Hascii as (Hexact & Hcase & _); [reflexivity | reflexivity |].
  split; [apply Hlink; right; vm_compute; reflexivity |].
  split; [| split].
  - apply Hexact; [reflexivity |]. vm_compute. right. left.
  - apply Hcase; reflexivity.
  - intros Haccepted. apply Hexact in Haccepted; [| reflexivity].
    vm_compute in Haccepted.
    apply elem_of_cons in Haccepted as [[=] | Haccepted].
    apply elem_of_cons in Haccepted as [[=] | Haccepted].
    apply elem_of_cons in Haccepted as [[=] | Haccepted].
    by apply elem_of_nil in Haccepted.
Defined.

Lemma handleTaskEdit_frame_witness :
  ({[ "t1" := completedState ]} : gmap string (gmap string JSVal)) !! "t1"
  = Some completedState
  ∧ ∃ entry',
      handleTaskEdit "t1" "2025-01-13T09:30:00.000Z" {[ "t1" := completedState ]}
        !! "t1" = Some entry'
      ∧ entry' !! "completed" = Some (VBool false)
      ∧ entry' !! "link" = Some (VStr "https://example.com/proof")
      ∧ entry' !! "comments" = Some (VRef 7).
Proof.
  assert (Hentry : ({[ "t1" := completedState ]}
                      : gmap string (gmap string JSVal)) !! "t1"
                   = Some completedState).
  { vm_compute. reflexivity. }
  split; [exact Hentry |].
  destruct (handleTaskEdit_frame "t1" "2025-01-13T09:30:00.000Z"
              {[ "t1" := completedState ]} completedState Hentry)
    as (entry' & Hget & Hdone & _ & _ & _ & Hlink & Hcomments & _).
  exists entry'. split; [exact Hget |]. split; [exact Hdone |].
  split; [rewrite Hlink | rewrite Hcomments]; vm_compute; reflexivity.
Defined.

End Scenarios.

(** ** The paginated activity log *)

Module ActivityLogFacts.
Import ActivityLog.
Local Open Scope Z_scope.

Lemma ceil_div_bounds (a b : Z) :
  0 < b → (ceil_div a b - 1) * b < a ∧ a ≤ ceil_div a b * b.
Proof.
  intros Hb. unfold ceil_div.
  pose proof (Z.div_mod (- a) b). pose proof (Z.mod_pos_bound (- a) b). nia.
Qed.

Lemma ceil_div_nonneg (a b : Z) : 0 < b → 0 ≤ a → 0 ≤ ceil_div a b.
Proof. intros Hb Ha. pose proof (ceil_div_bounds a b Hb). nia. Qed.

Lemma ceil_div_pos (a b : Z) : 0 < b → 0 < a → 1 ≤ ceil_div a b.
Proof. intros Hb Ha. pose proof (ceil_div_bounds a b Hb). nia. Qed.

(** A slice that starts inside or after the list and spans [n] places. *)
Lemma slice_window {A} (l : list A) (start n : Z) :
  0 ≤ start → 0 ≤ n →
  slice l start (start + n) = take (Z.to_nat n) (drop (Z.to_nat start) l).
Proof.
  intros Hs Hn. unfold slice, slice_index.
  destruct (Z.ltb_spec start 0); [lia |].
  destruct (Z.ltb_spec (start + n) 0); [lia |].
  destruct (Z.le_gt_cases (Z.of_nat (length l)) start) as [Hout | Hin].
  - rewrite (Z.min_r start) by lia.
    rewrite (drop_ge l (Z.to_nat start)) by lia.
    rewrite (drop_ge l (Z.to_nat (Z.of_nat (length l)))) by lia.
    by rewrite !take_nil.
  - rewrite (Z.min_l start) by lia.
    destruct (Z.le_gt_cases (start + n) (Z.of_nat (length l))).
    + rewrite Z.min_l by lia. f_equal. lia.
    + rewrite Z.min_r by lia.
      rewrite (take_ge (drop (Z.to_nat start) l) (Z.to_nat n))
        by (rewrite length_drop; lia).
      apply take_ge. rewrite length_drop. lia.
Qed.

Lemma page_data_window {A} (s : State A) :
  0 < itemsPerPage s → 1 ≤ currentPage s →
  getCurrentPageData s
  = take (Z.to_nat (itemsPerPage s))
         (drop (Z.to_nat ((currentPage s - 1) * itemsPerPage s)) (activities s)).
Proof.
  intros Hipp Hpage. unfold getCurrentPageData. apply slice_window; nia.
Qed.

Lemma page_data_length {A} (s : State A) :
  0 < itemsPerPage s → 1 ≤ currentPage s →
  Z.of_nat (length (getCurrentPageData s))
  = Z.min (itemsPerPage s)
          (Z.max 0 (Z.of_nat (length (activities s))
                    - (currentPage s - 1) * itemsPerPage s)).
Proof.
  intros Hipp Hpage. rewrite page_data_window by done.
  rewrite length_take, length_drop. nia.
Qed.

Lemma step_itemsPerPage {A} (s : State A) (op : Op A) :
  itemsPerPage (step s op) = itemsPerPage s.
Proof.
  destruct op; simpl; try done.
  - unfold goToPage. by destruct (_ || _).
  - unfold previousPage, goToPage. destruct (_ >? _); [| done]. by destruct (_ || _).
  - unfold nextPage, goToPage. destruct (_ <? _); [| done]. by destruct (_ || _).
Qed.

Lemma goToPage_in_range {A} (page : Z) (s : State A) :
  currentPage s = 1 ∨ 1 ≤ currentPage s ≤ getTotalPages s →
  currentPage (goToPage page s) = 1
  ∨ 1 ≤ currentPage (goToPage page s) ≤ getTotalPages (goToPage page s).
Proof.
  intros Hs. unfold goToPage.
  destruct (Z.ltb_spec page 1); simpl; [done |].
  destruct (Z.gtb_spec page (getTotalPages s)); simpl; [done |].
  right. unfold getTotalPages. simpl. unfold getTotalPages in *. lia.
Qed.

Lemma step_page_in_range {A} (s : State A) (op : Op A) :
  currentPage s = 1 ∨ 1 ≤ currentPage s ≤ getTotalPages s →
  currentPage (step s op) = 1
  ∨ 1 ≤ currentPage (step s op) ≤ getTotalPages (step s op).
Proof.
  intros Hs. destruct op; simpl.
  - by apply goToPage_in_range.
  - unfold previousPage. destruct (_ >? _); [by apply goToPage_in_range | done].
  - unfold nextPage. destruct (_ <? _); [by apply goToPage_in_range | done].
  - by left.
  - by left.
Qed.

Lemma run_itemsPerPage {A} (ops : list (Op A)) (s : State A) :
  itemsPerPage (run ops s) = itemsPerPage s.
Proof.
  unfold run. revert s. induction ops as [|op ops IH]; intros s; [done |].
  simpl. by rewrite IH, step_itemsPerPage.
Qed.

Lemma run_keeps_page_in_range {A} (ops : list (Op A)) (s : State A) :
  currentPage s = 1 ∨ 1 ≤ currentPage s ≤ getTotalPages s →
  currentPage (run ops s) = 1
  ∨ 1 ≤ currentPage (run ops s) ≤ getTotalPages (run ops s).
Proof.
  unfold run. revert s. induction ops as [|op ops IH]; intros s Hs; [done |].
  simpl. apply IH. by apply step_page_in_range.
Qed.

(** X1.  Whatever the configuration and whatever pages are asked for -
    numbers out of range included - and however the activities are replaced,
    the current page of the log is page 1 or a page between 1 and the number
    of pages. *)
Theorem run_page_in_range {A} (config_activities : option (list A))
    (config_itemsPerPage : option Z) (ops : list (Op A)) :
  currentPage (run ops (constructor config_activities config_itemsPerPage)) = 1
  ∨ 1 ≤ currentPage (run ops (constructor config_activities config_itemsPerPage))
      ≤ getTotalPages (run ops (constructor config_activities config_itemsPerPage)).
Proof. apply run_keeps_page_in_range. by left. Qed.

(** X2.  With a page size that is not negative, a log that holds activities
    never shows an empty page, whatever was clicked before. *)
Theorem run_page_not_empty {A} (config_activities : option (list A))
    (config_itemsPerPage : option Z) (ops : list (Op A)) :
  (∀ n, config_itemsPerPage = Some n → 0 ≤ n) →
  activities (run ops (constructor config_activities config_itemsPerPage)) ≠ [] →
  getCurrentPageData (run ops (constructor config_activities config_itemsPerPage))
  ≠ [].
Proof.
  intros Hsize.
  assert (Hpage := run_keeps_page_in_range ops
                     (constructor config_activities config_itemsPerPage)
                     (or_introl eq_refl)).
  pose proof (run_itemsPerPage ops
                (constructor config_activities config_itemsPerPage)) as Hipp.
  set (s := run ops (constructor config_activities config_itemsPerPage)) in *.
  assert (Hpos : 0 < itemsPerPage s).
  { rewrite Hipp. simpl. destruct config_itemsPerPage as [n|]; [| lia].
    specialize (Hsize n eq_refl). destruct (Z.eqb_spec n 0); lia. }
  intros Hacts Hempty.
  assert (Hlen : 0 < Z.of_nat (length (activities s))).
  { destruct (activities s); [done | simpl; lia]. }
  assert (H1 : 1 ≤ currentPage s) by lia.
  pose proof (page_data_length s Hpos H1) as Hdata.
  rewrite Hempty in Hdata. simpl in Hdata.
  pose proof (ceil_div_bounds (Z.of_nat (length (activities s)))
                (itemsPerPage s) Hpos) as [Hlow _].
  fold (getTotalPages s) in Hlow.
  destruct Hpage as [Hone | Hrange]; nia.
Qed.

(** Cutting a list in [k] windows of [n] places gives the list back, when
    the windows reach its end. *)
Lemma windows_concat {A} (n : nat) (l : list A) (k : nat) :
  (length l ≤ k * n)%nat →
  concat ((λ i, take n (drop (i * n) l)) <$> seq 0 k) = l.
Proof.
  revert l. induction k as [|k IH]; intros l Hlen.
  - destruct l; [done |]. exfalso. simpl in Hlen. lia.
  - rewrite <- cons_seq, <- fmap_S_seq. simpl.
    rewrite <- list_fmap_compose.
    rewrite <- (take_drop n l) at 2. f_equal.
    rewrite <- (IH (drop n l)) by (rewrite length_drop; lia).
    f_equal. apply list_fmap_ext. intros _ i _. simpl.
    by rewrite drop_drop.
Qed.

(** X3.  With a positive page size, the pages 1 to [getTotalPages()], one
    after the other, are exactly the activities: no activity is dropped,
    repeated or moved by pagination. *)
Theorem pages_cover_activities {A} (s : State A) :
  0 < itemsPerPage s →
  concat ((λ page, getCurrentPageData (mkState (activities s) (itemsPerPage s) page))
            <$> seqZ 1 (getTotalPages s))
  = activities s.
Proof.
  intros Hipp. unfold seqZ. rewrite <- list_fmap_compose.
  pose proof (ceil_div_bounds (Z.of_nat (length (activities s)))
                (itemsPerPage s) Hipp) as [_ Hup].
  fold (getTotalPages s) in Hup.
  etrans; [| apply (windows_concat (Z.to_nat (itemsPerPage s)) (activities s)
                      (Z.to_nat (getTotalPages s))); nia].
  f_equal. apply list_fmap_ext. intros _ i _. simpl.
  rewrite page_data_window by (simpl; lia). simpl.
  do 2 f_equal. nia.
Qed.

(** X4.  On a page between 1 and the number of pages (page size positive),
    the header's "Showing a-b of n" is there and counts the rows of the
    page: the rows are the activities number [a] to [b], there is at least
    one and at most a page full of them, and every page but the last is
    full. *)
Theorem shown_range_counts_rows {A} (s : State A) :
  0 < itemsPerPage s →
  1 ≤ currentPage s ≤ getTotalPages s →
  ∃ a b,
    shown_range s = Some (a, b)
    ∧ 1 ≤ a ≤ b ∧ b ≤ Z.of_nat (length (activities s))
    ∧ getCurrentPageData s
      = take (Z.to_nat (b - a + 1)) (drop (Z.to_nat (a - 1)) (activities s))
    ∧ Z.of_nat (length (getCurrentPageData s)) = b - a + 1
    ∧ b - a + 1 ≤ itemsPerPage s
    ∧ (currentPage s < getTotalPages s → b - a + 1 = itemsPerPage s).
Proof.
  intros Hipp [Hlo Hhi].
  pose proof (ceil_div_bounds (Z.of_nat (length (activities s)))
                (itemsPerPage s) Hipp) as [Hlow Hup].
  fold (getTotalPages s) in Hlow, Hup.
  pose proof (page_data_length s Hipp Hlo) as Hlen.
  unfold shown_range.
  destruct (Z.gtb_spec (Z.of_nat (length (activities s))) 0) as [Hsome | Hnone];
    [| nia].
  eexists _, _. split; [reflexivity |].
  split; [nia |]. split; [lia |]. split.
  - rewrite page_data_window by done.
    replace (Z.to_nat ((currentPage s - 1) * itemsPerPage s + 1 - 1))
      with (Z.to_nat ((currentPage s - 1) * itemsPerPage s)) by lia.
    set (rest := drop _ (activities s)).
    assert (Hrest : Z.of_nat (length rest)
                    = Z.of_nat (length (activities s))
                      - (currentPage s - 1) * itemsPerPage s).
    { unfold rest. rewrite length_drop. nia. }
    destruct (Z.le_gt_cases (currentPage s * itemsPerPage s)
                            (Z.of_nat (length (activities s)))).
    + f_equal. nia.
    + rewrite !take_ge; [done | nia | nia].
  - split; [nia |]. split; nia.
Qed.

(** X5.  On a page between 1 and the number of pages, "Next" followed by
    "Previous" comes back to the same state unless the page is the last one,
    and "Previous" followed by "Next" comes back to it unless the page is
    the first one. *)
Theorem next_previous_inverse {A} (s : State A) :
  1 ≤ currentPage s ≤ getTotalPages s →
  (currentPage s < getTotalPages s →
     currentPage (nextPage s) = currentPage s + 1
     ∧ previousPage (nextPage s) = s)
  ∧ (1 < currentPage s →
     currentPage (previousPage s) = currentPage s - 1
     ∧ nextPage (previousPage s) = s)
  ∧ (currentPage s = getTotalPages s → nextPage s = s)
  ∧ (currentPage s = 1 → previousPage s = s).
Proof.
  destruct s as [acts ipp c]. unfold nextPage, previousPage, goToPage, getTotalPages.
  simpl. set (T := ceil_div _ _). intros [Hlo Hhi].
  split; [| split; [| split]].
  - intros Hlt. destruct (Z.ltb_spec c T); [| lia].
    destruct (Z.ltb_spec (c + 1) 1); [lia |].
    destruct (Z.gtb_spec (c + 1) T); [lia |]. simpl.
    split; [done |].
    destruct (Z.gtb_spec (c + 1) 1); [| lia]. fold T.
    destruct (Z.ltb_spec (c + 1 - 1) 1); [lia |].
    destruct (Z.gtb_spec (c + 1 - 1) T); [lia |]. simpl.
    f_equal. lia.
  - intros Hgt. destruct (Z.gtb_spec c 1); [| lia].
    destruct (Z.ltb_spec (c - 1) 1); [lia |].
    destruct (Z.gtb_spec (c - 1) T); [lia |]. simpl.
    split; [done |]. fold T.
    destruct (Z.ltb_spec (c - 1) T); [| lia].
    destruct (Z.ltb_spec (c - 1 + 1) 1); [lia |].
    destruct (Z.gtb_spec (c - 1 + 1) T); [lia |]. simpl.
    f_equal. lia.
  - intros ->. by rewrite Z.ltb_irrefl.
  - intros ->. done.
Qed.

(** Show a mapped list as such again after simplification. *)
Ltac fold_fmap :=
  repeat match goal with
         | |- context [list_fmap ?X ?Y ?f ?l] =>
             change (list_fmap X Y f l) with (f <$> l)
         end.

Lemma includes_spec (pages : list PageItem) (i : Z) :
  includes pages i = true ↔ PageNo i ∈ pages.
Proof.
  unfold includes. induction pages as [|item pages IH]; simpl.
  - split; [done | by intros ?%elem_of_nil].
  - rewrite orb_true_iff, IH, elem_of_cons. destruct item as [n|].
    + rewrite Z.eqb_eq. split; intros [H | H]; auto; [left | left]; congruence.
    + split; intros [H | H]; auto; discriminate.
Qed.

Lemma includes_false (pages : list PageItem) (i : Z) :
  PageNo i ∉ pages → includes pages i = false.
Proof.
  intros Hnot. destruct (includes pages i) eqn:Hin; [| done].
  by apply includes_spec in Hin.
Qed.

(** The loop that pushes every number. *)
Lemma push_all (l : list Z) (pages : list PageItem) :
  fold_left (λ pages i, (pages ++ [PageNo i])%list) l pages
  = (pages ++ (PageNo <$> l))%list.
Proof.
  revert pages. induction l as [|i l IH]; intros pages; simpl.
  - by rewrite app_nil_r.
  - rewrite IH. by rewrite <- app_assoc.
Qed.

(** The loop that skips the numbers already there pushes every number of a
    duplicate-free range none of which is there. *)
Lemma push_fresh (l : list Z) (pages : list PageItem) :
  NoDup l → (∀ i, i ∈ l → PageNo i ∉ pages) →
  fold_left (λ pages i, if includes pages i then pages
                        else (pages ++ [PageNo i])%list) l pages
  = (pages ++ (PageNo <$> l))%list.
Proof.
  revert pages. induction l as [|i l IH]; intros pages Hnd Hfresh; simpl.
  - by rewrite app_nil_r.
  - apply NoDup_cons in Hnd as [Hi Hnd].
    rewrite includes_false by (apply Hfresh; left).
    rewrite IH; [by rewrite <- app_assoc | done |].
    intros j Hj [Hin | Hin%list_elem_of_singleton]%elem_of_app.
    + by apply (Hfresh j); [right |].
    + congruence.
Qed.

(** A run of consecutive numbers is well spaced. *)
Lemma spaced_run (n : nat) (a : Z) (rest : list PageItem) :
  spaced a false ((PageNo <$> seqZ (a + 1) (Z.of_nat n)) ++ rest)%list
  = spaced (a + Z.of_nat n) false rest.
Proof.
  revert a. induction n as [|n IH]; intros a.
  - simpl. by rewrite Z.add_0_r.
  - rewrite seqZ_cons by lia. simpl. rewrite Z.eqb_refl. simpl.
    replace (Z.succ (a + 1)) with (a + 1 + 1) by lia.
    replace (Z.pred (Z.of_nat (S n))) with (Z.of_nat n) by lia.
    rewrite IH. f_equal. lia.
Qed.

(** X6.  On a page between 1 and the number of pages, the pagination bar
    shows the first page, the current page and the last page, has at most
    seven entries, lists page numbers of the log only, starts at 1, and
    marks its gaps: two neighbouring numbers are consecutive, and an
    ellipsis stands exactly where at least one page is left out. *)
Theorem getPageNumbers_bar {A} (s : State A) :
  1 ≤ currentPage s ≤ getTotalPages s →
  PageNo 1 ∈ getPageNumbers s
  ∧ PageNo (currentPage s) ∈ getPageNumbers s
  ∧ PageNo (getTotalPages s) ∈ getPageNumbers s
  ∧ (length (getPageNumbers s) ≤ 7)%nat
  ∧ (∀ n, PageNo n ∈ getPageNumbers s → 1 ≤ n ≤ getTotalPages s)
  ∧ well_spaced (getPageNumbers s) = true.
Proof.
  unfold getPageNumbers.
  generalize (getTotalPages s) (currentPage s). clear s. intros T c [Hlo Hhi].
  destruct (Z.leb_spec T 7) as [Hsmall | Hlarge].
  - rewrite push_all. simpl.
    assert (Hmem : ∀ n, PageNo n ∈ PageNo <$> seqZ 1 T ↔ 1 ≤ n ≤ T).
    { intros n. rewrite list_elem_of_fmap. split.
      - intros (m & [= ->] & Hm%elem_of_seqZ). lia.
      - intros Hn. exists n. split; [done |]. apply elem_of_seqZ. lia. }
    split; [apply Hmem; lia |]. split; [apply Hmem; lia |].
    split; [apply Hmem; lia |].
    split; [rewrite length_fmap, length_seqZ; lia |].
    split; [intros n; apply Hmem |].
    rewrite seqZ_cons by lia. simpl. fold_fmap.
    pose proof (spaced_run (Z.to_nat (T - 1)) 1 []) as Hrun.
    rewrite app_nil_r in Hrun.
    replace (Z.pred T) with (Z.of_nat (Z.to_nat (T - 1))) by lia.
    replace (Z.succ 1) with (1 + 1) by lia.
    by rewrite Hrun.
  - set (start := Z.max 2 (c - 1)). set (end_ := Z.min (T - 1) (c + 1)).
    set (pages2 := if c >? 3 then ([PageNo 1] ++ [Ellipsis])%list else [PageNo 1]).
    assert (Hwindow : ∀ i, i ∈ seqZ start (end_ - start + 1) ↔ start ≤ i ≤ end_).
    { intros i. rewrite elem_of_seqZ. lia. }
    assert (Hpages2 : ∀ n, PageNo n ∈ pages2 ↔ n = 1).
    { intros n. unfold pages2. destruct (c >? 3); simpl.
      - rewrite !elem_of_cons. split; [| intros ->; by left].
        intros [[= ->] | [[=] | []%elem_of_nil]]. done.
      - rewrite list_elem_of_singleton. split; [by intros [= ->] | by intros ->]. }
    rewrite push_fresh; [| apply NoDup_seqZ |]; last first.
    { intros i Hi%Hwindow Hin%Hpages2. unfold start in Hi. lia. }
    set (window := PageNo <$> seqZ start (end_ - start + 1)).
    assert (Hwin : ∀ n, PageNo n ∈ window ↔ start ≤ n ≤ end_).
    { intros n. unfold window. rewrite list_elem_of_fmap. split.
      - intros (m & [= ->] & Hm%Hwindow). done.
      - intros Hn. exists n. split; [done | by apply Hwindow]. }
    set (pages4 := if c <? T - 2 then ((pages2 ++ window) ++ [Ellipsis])%list
                   else (pages2 ++ window)%list).
    assert (Hpages4 : ∀ n, PageNo n ∈ pages4 ↔ n = 1 ∨ start ≤ n ≤ end_).
    { intros n. unfold pages4. destruct (c <? T - 2).
      - rewrite !elem_of_app, Hpages2, Hwin, list_elem_of_singleton.
        split; [intros [H | [=]]; done | intros H; by left].
      - by rewrite elem_of_app, Hpages2, Hwin. }
    rewrite includes_false; last first.
    { intros [Hone | Hin]%Hpages4; unfold end_ in *; lia. }
    assert (Hall : ∀ n, PageNo n ∈ (pages4 ++ [PageNo T])%list
                        ↔ n = 1 ∨ start ≤ n ≤ end_ ∨ n = T).
    { intros n. rewrite elem_of_app, Hpages4, list_elem_of_singleton.
      split; [intros [[H | H] | [= ->]]; auto | intros [H | [H | ->]]; auto]. }
    split; [apply Hall; by left |].
    split; [apply Hall; unfold start, end_; lia |].
    split; [apply Hall; by right; right |].
    split.
    { rewrite length_app. unfold pages4, pages2, window.
      destruct (c <? T - 2), (c >? 3);
        rewrite ?length_app, length_fmap, length_seqZ; simpl;
        unfold start, end_; lia. }
    split.
    { intros n Hn%Hall. unfold start, end_ in Hn. lia. }
    assert (Hsplit : seqZ start (end_ - start + 1)
                     = start :: seqZ (start + 1) (Z.of_nat (Z.to_nat (end_ - start)))).
    { rewrite seqZ_cons by (unfold start, end_; lia).
      replace (Z.succ start) with (start + 1) by lia.
      replace (Z.pred (end_ - start + 1))
        with (Z.of_nat (Z.to_nat (end_ - start))); [done |].
      unfold start, end_. lia. }
    assert (Hend : start + Z.of_nat (Z.to_nat (end_ - start)) = end_).
    { unfold start, end_. lia. }
    unfold pages4, pages2, window. rewrite Hsplit.
    destruct (Z.ltb_spec c (T - 2)), (Z.gtb_spec c 3); simpl; fold_fmap;
      rewrite <- ?app_assoc; rewrite spaced_run, Hend; simpl;
      unfold start, end_;
      repeat match goal with
             | |- context [Z.ltb ?a ?b] => destruct (Z.ltb_spec a b); try lia
             | |- context [Z.eqb ?a ?b] => destruct (Z.eqb_spec a b); try lia
             end; done.
Qed.

End ActivityLogFacts.

(** ** The task handlers *)

Module TaskHandlersFacts.
Import Directory TaskItem TaskList TaskHandlers.
Import DirectoryFacts TaskItemFacts StringFacts.

(** X7.  [getMenuSlug] never returns an empty slug: a missing menu id gives
    ['tongquan'], a menu with a slug gives that slug, and anything else gives
    the menu id itself. *)
Theorem getMenuSlug_not_empty (menuId : string) (dynamicMenus : list Menu) :
  getMenuSlug menuId dynamicMenus ≠ ""
  ∧ (menuId = "" → getMenuSlug menuId dynamicMenus = "tongquan")
  ∧ (menuId ≠ "" → menuId ∉ menu_id <$> dynamicMenus →
     getMenuSlug menuId dynamicMenus = menuId).
Proof.
  unfold getMenuSlug. split; [| split].
  - destruct (String.eqb_spec menuId ""); [done |].
    destruct dynamicMenus as [|m0 rest]; [done |].
    destruct (find_menu _ menuId) as [m|]; [| done].
    destruct (menu_slug m) as [slug|]; [| done].
    by destruct (String.eqb_spec slug "").
  - by intros ->.
  - intros Hne Hnot. destruct (String.eqb_spec menuId ""); [done |].
    destruct dynamicMenus; [done |]. by rewrite find_menu_absent.
Qed.

(** X8.  For a menu of the directory (ids distinct, id not empty), the slug
    of [getMenuSlug] and the path of [getMenuPath] name the same place
    exactly when the menu has a non-empty slug; without one, [getMenuSlug]
    gives the bare id while [getMenuPath] gives ["/dynamic-menu/<id>"]. *)
Theorem getMenuSlug_vs_getMenuPath (dynamicMenus : list Menu) (m : Menu) :
  m ∈ dynamicMenus → NoDup (menu_id <$> dynamicMenus) → menu_id m ≠ "" →
  ("/" +:+ getMenuSlug (menu_id m) dynamicMenus
   = (getMenuPath dynamicMenus (menu_id m)).1
   ↔ ∃ slug, menu_slug m = Some slug ∧ slug ≠ "")
  ∧ (menu_slug m = None ∨ menu_slug m = Some "" →
     getMenuSlug (menu_id m) dynamicMenus = menu_id m
     ∧ (getMenuPath dynamicMenus (menu_id m)).1 = "/dynamic-menu/" +:+ menu_id m).
Proof.
  intros Hin Hnd Hid.
  assert (Hslugless : menu_slug m = None ∨ menu_slug m = Some "" →
     getMenuSlug (menu_id m) dynamicMenus = menu_id m
     ∧ (getMenuPath dynamicMenus (menu_id m)).1 = "/dynamic-menu/" +:+ menu_id m).
  { intros Hs. rewrite getMenuPath_present by done.
    unfold getMenuSlug. destruct (String.eqb_spec (menu_id m) ""); [done |].
    rewrite find_menu_present by done.
    destruct dynamicMenus; [by apply elem_of_nil in Hin |].
    by destruct Hs as [-> | ->]. }
  split; [| exact Hslugless].
  split.
  - intros Heq. destruct (menu_slug m) as [slug|] eqn:Hslug.
    + destruct (String.eqb_spec slug "") as [-> | Hne]; [| by exists slug].
      destruct Hslugless as [Ha Hb]; [by right |]. rewrite Ha, Hb in Heq.
      apply (f_equal String.length) in Heq. simpl in Heq.
      rewrite append_length in Heq. simpl in Heq. lia.
    + destruct Hslugless as [Ha Hb]; [by left |]. rewrite Ha, Hb in Heq.
      apply (f_equal String.length) in Heq. simpl in Heq.
      rewrite append_length in Heq. simpl in Heq. lia.
  - intros (slug & Hslug & Hne). rewrite getMenuPath_present by done.
    unfold getMenuSlug. destruct (String.eqb_spec (menu_id m) ""); [done |].
    rewrite find_menu_present by done.
    destruct dynamicMenus; [by apply elem_of_nil in Hin |].
    rewrite Hslug. simpl. by destruct (String.eqb_spec slug "").
Qed.

(** On a [taskState] that already has an entry for every task,
    [getTaskStates] only reads. *)
Lemma getTaskStates_settled (tasks : list (option Task))
    (collected taskState : gmap string (gmap string JSVal)) (next : nat) :
  (∀ t, Some t ∈ tasks → task_id t ≠ "" → is_Some (taskState !! task_id t)) →
  fold_left getTaskStates_step tasks (mkTaskStates collected taskState next)
  = mkTaskStates (fold_left (collect_state taskState) tasks collected)
                 taskState next.
Proof.
  revert collected. induction tasks as [|task tasks IH]; intros collected Hall; [done |].
  simpl. destruct task as [t|]; simpl.
  - destruct (String.eqb_spec (task_id t) "") as [Hempty | Hid].
    + apply IH. intros t' Ht'. apply Hall. by right.
    + destruct (Hall t) as [entry Hentry]; [by left | done |].
      rewrite Hentry. simpl. apply IH. intros t' Ht'. apply Hall. by right.
  - apply IH. intros t' Ht'. apply Hall. by right.
Qed.

(** What one run of the loop of [getTaskStates] does to its three
    variables. *)
Lemma getTaskStates_loop (tasks : list (option Task))
    (collected taskState : gmap string (gmap string JSVal)) (next : nat) :
  let r := fold_left getTaskStates_step tasks
                     (mkTaskStates collected taskState next) in
  taskState ⊆ global_taskState r
  ∧ (∀ t, Some t ∈ tasks → task_id t ≠ "" →
          is_Some (global_taskState r !! task_id t))
  ∧ states r = fold_left (collect_state (global_taskState r)) tasks collected
  ∧ (∀ k entry, global_taskState r !! k = Some entry → taskState !! k = None →
       ∃ addr, (next ≤ addr < next_address r)%nat ∧ entry = initial_state addr)
  ∧ (next ≤ next_address r)%nat.
Proof.
  revert collected taskState next.
  induction tasks as [|task tasks IH]; intros collected taskState next; simpl.
  { repeat split; try done. intros t Ht. by apply elem_of_nil in Ht.
    intros k entry Hk Hnone. congruence. }
  destruct task as [t|]; simpl.
  - destruct (String.eqb_spec (task_id t) "") as [Hempty | Hid].
    + destruct (IH collected taskState next) as (Hsub & Hcov & Hst & Hnew & Hnext).
      repeat split; try done.
      intros t' [[= <-] | Ht']%elem_of_cons Hid'; [done | by apply Hcov].
    + destruct (taskState !! task_id t) as [entry|] eqn:Hentry.
      * destruct (IH (<[task_id t := entry]> collected) taskState next)
          as (Hsub & Hcov & Hst & Hnew & Hnext).
        repeat split; try done.
        -- intros t' [[= <-] | Ht']%elem_of_cons Hid'; [| by apply Hcov].
           exists entry. by eapply lookup_weaken.
        -- rewrite Hst. by rewrite (lookup_weaken _ _ _ _ Hentry Hsub).
      * destruct (IH (<[task_id t := initial_state next]> collected)
                     (<[task_id t := initial_state next]> taskState) (S next))
          as (Hsub & Hcov & Hst & Hnew & Hnext).
        assert (Hins : taskState ⊆ <[task_id t := initial_state next]> taskState)
          by by apply insert_subseteq.
        assert (Hget : global_taskState
                         (fold_left getTaskStates_step tasks
                            (mkTaskStates
                               (<[task_id t := initial_state next]> collected)
                               (<[task_id t := initial_state next]> taskState)
                               (S next))) !! task_id t
                       = Some (initial_state next)).
        { eapply lookup_weaken; [| exact Hsub]. apply lookup_insert_eq. }
        repeat split.
        -- by etrans.
        -- intros t' [[= <-] | Ht']%elem_of_cons Hid'; [by eexists | by apply Hcov].
        -- rewrite Hst. by rewrite Hget.
        -- intros k entry Hk Hnone.
           destruct (decide (k = task_id t)) as [-> | Hne].
           ++ exists next. split; [lia | congruence].
           ++ destruct (Hnew k entry Hk) as (addr & Haddr & ->).
              { by rewrite lookup_insert_ne. }
              exists addr. split; [lia | done].
        -- lia.
  - destruct (IH collected taskState next) as (Hsub & Hcov & Hst & Hnew & Hnext).
    repeat split; try done.
    intros t' [[=] | Ht']%elem_of_cons Hid'. by apply Hcov.
Qed.

(** An entry that [collect_state] has put under a key stays there. *)
Lemma collect_state_stable (taskState : gmap string (gmap string JSVal))
    (tasks : list (option Task)) (collected : gmap string (gmap string JSVal))
    (k : string) (entry : gmap string JSVal) :
  collected !! k = Some entry → taskState !! k = Some entry →
  fold_left (collect_state taskState) tasks collected !! k = Some entry.
Proof.
  revert collected. induction tasks as [|task tasks IH]; intros collected Hc Ht; [done |].
  simpl. apply IH; [| done]. unfold collect_state.
  destruct task as [t|]; [| done].
  destruct (String.eqb_spec (task_id t) ""); [done |].
  destruct (taskState !! task_id t) as [entry'|] eqn:Hentry'; [| done].
  destruct (decide (task_id t = k)) as [Heq | Hne].
  - rewrite Heq in *. rewrite lookup_insert_eq. congruence.
  - by rewrite lookup_insert_ne.
Qed.

Lemma collect_state_covers (taskState : gmap string (gmap string JSVal))
    (tasks : list (option Task)) (collected : gmap string (gmap string JSVal))
    (t : Task) (entry : gmap string JSVal) :
  Some t ∈ tasks → task_id t ≠ "" → taskState !! task_id t = Some entry →
  fold_left (collect_state taskState) tasks collected !! task_id t = Some entry.
Proof.
  revert collected. induction tasks as [|task tasks IH]; intros collected Hin Hid Ht.
  { by apply elem_of_nil in Hin. }
  simpl. apply elem_of_cons in Hin as [<- | Hin]; [| by apply IH].
  apply collect_state_stable; [| done]. simpl.
  destruct (String.eqb_spec (task_id t) ""); [done |].
  rewrite Ht. apply lookup_insert_eq.
Qed.

Lemma collect_state_keys (taskState : gmap string (gmap string JSVal))
    (tasks : list (option Task)) (collected : gmap string (gmap string JSVal))
    (k : string) :
  is_Some (fold_left (collect_state taskState) tasks collected !! k) →
  is_Some (collected !! k)
  ∨ ∃ t, Some t ∈ tasks ∧ task_id t = k ∧ k ≠ "".
Proof.
  revert collected. induction tasks as [|task tasks IH]; intros collected Hk; [by left |].
  simpl in Hk. apply IH in Hk as [Hk | (t & Ht & Hid & Hne)].
  - unfold collect_state in Hk. destruct task as [t|]; [| by left].
    destruct (String.eqb_spec (task_id t) "") as [|Hid]; [by left |].
    destruct (taskState !! task_id t); [| by left].
    destruct (decide (task_id t = k)) as [Heq | Hne].
    + right. exists t. split; [left | split; [done | congruence]].
    + left. by rewrite lookup_insert_ne in Hk.
  - right. exists t. split; [by right | done].
Qed.

(** X9.  For tasks whose ids are not names that every object inherits (for
    such a name [taskState[task.id]] is never missing), [getTaskStates]
    leaves every existing entry of [taskState] as it is, gives every task
    with an id an entry - the same one in [taskState] and in the returned
    [states] - creates only initial states (not completed, no link) with a
    new [comments] array each, and returns states for tasks of the list
    only. *)
Theorem getTaskStates_fills (tasks : list (option Task))
    (taskState : gmap string (gmap string JSVal)) (next : nat) :
  (∀ t, Some t ∈ tasks → inherited_name (task_id t) = false) →
  (∀ k entry, taskState !! k = Some entry →
     global_taskState (getTaskStates tasks taskState next) !! k = Some entry)
  ∧ (∀ t, Some t ∈ tasks → task_id t ≠ "" →
       ∃ entry,
         global_taskState (getTaskStates tasks taskState next) !! task_id t
         = Some entry
         ∧ states (getTaskStates tasks taskState next) !! task_id t = Some entry)
  ∧ (∀ k entry,
       global_taskState (getTaskStates tasks taskState next) !! k = Some entry →
       taskState !! k = None →
       ∃ addr, (next ≤ addr < next_address (getTaskStates tasks taskState next))%nat
               ∧ entry = initial_state addr)
  ∧ (∀ k, is_Some (states (getTaskStates tasks taskState next) !! k) →
       ∃ t, Some t ∈ tasks ∧ task_id t = k ∧ k ≠ "").
Proof.
  intros _. unfold getTaskStates.
  destruct (getTaskStates_loop tasks ∅ taskState next)
    as (Hsub & Hcov & Hst & Hnew & _).
  split; [| split; [| split]].
  - intros k entry Hk. by eapply lookup_weaken.
  - intros t Ht Hid. destruct (Hcov t Ht Hid) as [entry Hentry].
    exists entry. split; [done |]. rewrite Hst. by apply collect_state_covers.
  - exact Hnew.
  - intros k Hk. rewrite Hst in Hk.
    apply collect_state_keys in Hk as [[? Hk] | Hk]; [| done].
    by rewrite lookup_empty in Hk.
Qed.

(** X10.  Calling [getTaskStates] again on what the first call left behind
    changes nothing: the same [states] come back, [taskState] is not
    touched and no array is created. *)
Theorem getTaskStates_again (tasks : list (option Task))
    (taskState : gmap string (gmap string JSVal)) (next : nat) :
  getTaskStates tasks
    (global_taskState (getTaskStates tasks taskState next))
    (next_address (getTaskStates tasks taskState next))
  = getTaskStates tasks taskState next.
Proof.
  unfold getTaskStates.
  destruct (getTaskStates_loop tasks ∅ taskState next)
    as (_ & Hcov & Hst & _ & _).
  rewrite getTaskStates_settled by exact Hcov. rewrite <- Hst.
  by destruct (fold_left getTaskStates_step tasks _).
Qed.

(** Writing one field of the entry of a task. *)
Lemma set_field_lookup (taskId field : string) (value : JSVal)
    (taskState : gmap string (gmap string JSVal)) :
  set_field taskId field value taskState !! taskId
  = insert field value <$> taskState !! taskId.
Proof. unfold set_field. apply lookup_alter_eq. Qed.

Lemma set_field_other (taskId field other : string) (value : JSVal)
    (taskState : gmap string (gmap string JSVal)) :
  other ≠ taskId →
  set_field taskId field value taskState !! other = taskState !! other.
Proof. intros Hne. unfold set_field. by apply lookup_alter_ne. Qed.

(** After [if (!taskState[taskId]) taskState[taskId] = {}] the task has an
    entry: the one it had, or an empty one. *)
Lemma ensure_entry_lookup (taskId : string)
    (taskState : gmap string (gmap string JSVal)) :
  match taskState !! taskId with
  | Some _ => taskState
  | None => <[taskId := ∅]> taskState
  end !! taskId = Some (default ∅ (taskState !! taskId)).
Proof.
  destruct (taskState !! taskId) eqn:Hentry; simpl; [done |].
  apply lookup_insert_eq.
Qed.

Lemma ensure_entry_other (taskId other : string)
    (taskState : gmap string (gmap string JSVal)) :
  other ≠ taskId →
  match taskState !! taskId with
  | Some _ => taskState
  | None => <[taskId := ∅]> taskState
  end !! other = taskState !! other.
Proof.
  intros Hne. destruct (taskState !! taskId); [done |].
  by rewrite lookup_insert_ne.
Qed.

Section HandlerFacts.

Variable trim : string → string.
Variable valid_url : string → bool.

Local Abbreviation handleTaskComplete' := (handleTaskComplete trim valid_url).

(** The state written by a successful [handleTaskComplete]. *)
Lemma handleTaskComplete_success (taskId slug value completedAt updatedAt : string)
    (taskState : gmap string (gmap string JSVal)) :
  trim value ≠ "" → valid_url (trim value) = true →
  ∃ taskState',
    handleTaskComplete' taskId slug (Some value) completedAt updatedAt taskState
    = (taskState',
       Completed taskId slug
         (<["updatedAt" := VStr updatedAt]>
           (<["completedAt" := VStr completedAt]>
             (<["link" := VStr (trim value)]>
               (<["completed" := VBool true]>
                 (default ∅ (taskState !! taskId)))))))
    ∧ taskState' !! taskId
      = Some (<["updatedAt" := VStr updatedAt]>
               (<["completedAt" := VStr completedAt]>
                 (<["link" := VStr (trim value)]>
                   (<["completed" := VBool true]>
                     (default ∅ (taskState !! taskId))))))
    ∧ (∀ other, other ≠ taskId → taskState' !! other = taskState !! other).
Proof.
  intros Hlink Hurl. unfold handleTaskComplete.
  destruct (String.eqb_spec (trim value) ""); [done |]. rewrite Hurl.
  eexists. split; [| split].
  - f_equal. f_equal. by rewrite !set_field_lookup, ensure_entry_lookup.
  - by rewrite !set_field_lookup, ensure_entry_lookup.
  - intros other Hne. by rewrite !set_field_other, ensure_entry_other.
Qed.

(** X11.  [handleTaskComplete] is all or nothing, for a task id that is not
    a name every object inherits (for such a name [taskState[taskId]] is
    never missing and no entry would be created).  Without an input
    element, with a blank value, or with a value that is not a URL, it
    reports an error and [taskState] is exactly what it was.  Otherwise it
    reports success with the state of the task, in which [completed] is
    [true], [link] is the trimmed value and the two times are set; the
    other properties of that state and the other tasks are as before. *)
Theorem handleTaskComplete_all_or_nothing (taskId slug : string)
    (input : option string) (completedAt updatedAt : string)
    (taskState : gmap string (gmap string JSVal)) :
  inherited_name taskId = false →
  (∃ message,
      handleTaskComplete' taskId slug input completedAt updatedAt taskState
      = (taskState, Failed taskId message)
      ∧ (input = None
         ∨ ∃ value, input = Some value
                    ∧ (trim value = "" ∨ valid_url (trim value) = false)))
  ∨ (∃ value state taskState',
      input = Some value ∧ trim value ≠ "" ∧ valid_url (trim value) = true
      ∧ handleTaskComplete' taskId slug input completedAt updatedAt taskState
        = (taskState', Completed taskId slug state)
      ∧ taskState' !! taskId = Some state
      ∧ state !! "completed" = Some (VBool true)
      ∧ state !! "link" = Some (VStr (trim value))
      ∧ state !! "completedAt" = Some (VStr completedAt)
      ∧ state !! "updatedAt" = Some (VStr updatedAt)
      ∧ (∀ field, field ∉ ["completed"; "link"; "completedAt"; "updatedAt"] →
           state !! field = default ∅ (taskState !! taskId) !! field)
      ∧ (∀ other, other ≠ taskId → taskState' !! other = taskState !! other)).
Proof.
  intros _.
  destruct input as [value|]; [| left; eexists; split; [reflexivity | by left]].
  destruct (String.eqb_spec (trim value) "") as [Hblank | Hlink].
  { left. unfold handleTaskComplete. rewrite Hblank. simpl.
    eexists. split; [reflexivity |]. right. exists value. auto. }
  destruct (valid_url (trim value)) eqn:Hurl.
  - right.
    destruct (handleTaskComplete_success taskId slug value completedAt updatedAt
                taskState Hlink Hurl) as (taskState' & Hrun & Hstate & Hother).
    eexists value, _, taskState'. split; [done |]. split; [done |].
    split; [done |]. split; [exact Hrun |]. split; [exact Hstate |].
    do 4 (split; [by simplify_map_eq |]).
    split; [| exact Hother].
    intros field Hfield.
    rewrite !not_elem_of_cons in Hfield. destruct Hfield as (? & ? & ? & ? & _).
    by rewrite !lookup_insert_ne.
  - left. unfold handleTaskComplete.
    destruct (String.eqb_spec (trim value) ""); [done |]. rewrite Hurl.
    eexists. split; [reflexivity |]. right. exists value. auto.
Qed.

(** X12.  After a successful [handleTaskComplete], [isTaskCompleted] says
    the task is completed whatever the task object holds, and
    [handleTaskView] opens the trimmed link that was stored. *)
Theorem completed_task_is_completed (taskId slug value completedAt updatedAt : string)
    (taskState : gmap string (gmap string JSVal)) :
  trim value ≠ "" → valid_url (trim value) = true →
  ∃ state,
    (handleTaskComplete' taskId slug (Some value) completedAt updatedAt taskState).1
      !! taskId = Some state
    ∧ (∀ toLowerCase task,
         isTaskCompleted toLowerCase trim task state = Ok true)
    ∧ handleTaskView taskId slug false
        (handleTaskComplete' taskId slug (Some value) completedAt updatedAt
           taskState).1
      = Viewed taskId slug (VStr (trim value)).
Proof.
  intros Hlink Hurl.
  destruct (handleTaskComplete_success taskId slug value completedAt updatedAt
              taskState Hlink Hurl) as (taskState' & Hrun & Hstate & _).
  rewrite Hrun. simpl. eexists. split; [exact Hstate |]. split.
  - intros toLowerCase task. unfold isTaskCompleted, prop.
    by simplify_map_eq.
  - unfold handleTaskView. rewrite Hstate. unfold prop. simplify_map_eq.
    simpl. by destruct (String.eqb_spec (trim value) "").
Qed.

(** X13.  Reopening does not undo completion for [isTaskCompleted]: after a
    successful [handleTaskComplete] followed by [handleTaskEdit], the state
    has [completed] [false] but still holds the link, so [isTaskCompleted]
    still answers [true] (statuses being text), and [handleTaskView] still
    opens the link. *)
Theorem reopened_task_still_completed (toLowerCase : string → string)
    (taskId slug value completedAt updatedAt now : string)
    (task : gmap string JSVal)
    (taskState : gmap string (gmap string JSVal)) :
  trim value ≠ "" → valid_url (trim value) = true →
  status_is_text task →
  status_is_text (default ∅ (taskState !! taskId)) →
  ∃ state,
    handleTaskEdit taskId now
      (handleTaskComplete' taskId slug (Some value) completedAt updatedAt
         taskState).1 !! taskId = Some state
    ∧ state !! "completed" = Some (VBool false)
    ∧ state !! "link" = Some (VStr (trim value))
    ∧ isTaskCompleted toLowerCase trim task state = Ok true
    ∧ handleTaskView taskId slug false
        (handleTaskEdit taskId now
           (handleTaskComplete' taskId slug (Some value) completedAt updatedAt
              taskState).1)
      = Viewed taskId slug (VStr (trim value)).
Proof.
  intros Hlink Hurl Htask Hstate.
  destruct (handleTaskComplete_success taskId slug value completedAt updatedAt
              taskState Hlink Hurl) as (taskState' & Hrun & Hdone & _).
  rewrite Hrun. simpl.
  assert (Hedit : ∃ state,
    handleTaskEdit taskId now taskState' !! taskId = Some state
    ∧ state !! "completed" = Some (VBool false)
    ∧ state !! "link" = Some (VStr (trim value))
    ∧ state !! "status" = default ∅ (taskState !! taskId) !! "status").
  { unfold handleTaskEdit. rewrite Hdone.
    rewrite !set_field_lookup, Hdone. simpl.
    eexists. split; [reflexivity |]. do 2 (split; [by simplify_map_eq |]).
    by simplify_map_eq. }
  destruct Hedit as (state & Hget & Hcompleted & Hkept & Hstatus).
  exists state. split; [done |]. split; [done |]. split; [done |].
  assert (Htruthy : truthy (VStr (trim value)) = true).
  { simpl. by destruct (String.eqb_spec (trim value) ""). }
  split.
  - assert (Hstate' : status_is_text state).
    { unfold status_is_text, prop in *. by rewrite Hstatus. }
    assert (Hpc : prop state "completed" = VBool false)
      by (unfold prop; by rewrite Hcompleted).
    assert (Hpl : prop state "link" = VStr (trim value))
      by (unfold prop; by rewrite Hkept).
    unfold isTaskCompleted.
    rewrite (status_completed_text toLowerCase trim task Htask).
    rewrite (status_completed_text toLowerCase trim state Hstate').
    rewrite Hpc, Hpl. unfold or_else. simpl.
    destruct (is_true (prop task "isCompleted")); [done |].
    destruct (is_true (prop task "completed")); [done |].
    destruct (status_accepts toLowerCase trim (prop task "status")); [done |].
    destruct (status_accepts toLowerCase trim (prop state "status")); [done |].
    simpl. simpl in Htruthy.
    destruct (truthy (prop task "completionLink")) eqn:Hl;
      simpl; [by rewrite Hl | by rewrite Htruthy].
  - unfold handleTaskView. rewrite Hget. unfold prop. rewrite Hkept. simpl.
    simpl in Htruthy. by rewrite Htruthy.
Qed.

End HandlerFacts.

(** X14.  [handleTaskEdit] on a task without state - no entry of its own,
    and an id that is not a name every object inherits, so that
    [taskState[taskId]] is missing - creates one that holds exactly
    [completed: false], [completedAt: null] and [updatedAt], and leaves the
    other tasks alone. *)
Theorem handleTaskEdit_without_state (taskId now : string)
    (taskState : gmap string (gmap string JSVal)) :
  taskState !! taskId = None → inherited_name taskId = false →
  handleTaskEdit taskId now taskState !! taskId
  = Some (<["updatedAt" := VStr now]>
           (<["completedAt" := VNull]> (<["completed" := VBool false]> ∅)))
  ∧ dom (default ∅ (handleTaskEdit taskId now taskState !! taskId))
    = ({[ "completed"; "completedAt"; "updatedAt" ]} : gset string)
  ∧ (∀ other, other ≠ taskId →
       handleTaskEdit taskId now taskState !! other = taskState !! other).
Proof.
  intros Hnone _.
  assert (Hget : handleTaskEdit taskId now taskState !! taskId
    = Some (<["updatedAt" := VStr now]>
             (<["completedAt" := VNull]> (<["completed" := VBool false]> ∅)))).
  { unfold handleTaskEdit. rewrite !set_field_lookup, Hnone.
    by rewrite lookup_insert_eq. }
  split; [exact Hget |]. split.
  - rewrite Hget. simpl. rewrite !dom_insert_L, dom_empty_L. set_solver.
  - intros other Hne. unfold handleTaskEdit.
    rewrite !set_field_other by done. rewrite Hnone. by rewrite lookup_insert_ne.
Qed.

(** X15.  [handleTaskComment] toggles: it reports the section open exactly
    when it was closed, it changes the open state of no other task, and a
    second call restores the set of open sections. *)
Theorem handleTaskComment_toggles (taskId slug : string)
    (openCommentSections : gset string) :
  (handleTaskComment taskId slug openCommentSections).2
  = CommentToggled taskId slug (negb (bool_decide (taskId ∈ openCommentSections)))
  ∧ (∀ other, other ≠ taskId →
       other ∈ (handleTaskComment taskId slug openCommentSections).1
       ↔ other ∈ openCommentSections)
  ∧ (handleTaskComment taskId slug
       (handleTaskComment taskId slug openCommentSections).1).1
    = openCommentSections.
Proof.
  unfold handleTaskComment. simpl.
  destruct (decide (taskId ∈ openCommentSections)) as [Hin | Hout].
  - rewrite (bool_decide_eq_true_2 _ Hin).
    assert (Hgone : taskId ∉ openCommentSections ∖ {[taskId]}).
    { rewrite elem_of_difference, elem_of_singleton. tauto. }
    rewrite (bool_decide_eq_false_2 _ Hgone). simpl.
    split; [done |]. split.
    + intros other Hne. rewrite elem_of_difference, elem_of_singleton. tauto.
    + apply set_eq. intros x.
      rewrite elem_of_union, elem_of_difference, elem_of_singleton.
      destruct (decide (x = taskId)) as [-> | Hne]; tauto.
  - rewrite (bool_decide_eq_false_2 _ Hout).
    assert (Hnow : taskId ∈ openCommentSections ∪ {[taskId]}).
    { rewrite elem_of_union, elem_of_singleton. tauto. }
    rewrite (bool_decide_eq_true_2 _ Hnow). simpl.
    split; [done |]. split.
    + intros other Hne. rewrite elem_of_union, elem_of_singleton. tauto.
    + apply set_eq. intros x.
      rewrite elem_of_difference, elem_of_union, elem_of_singleton.
      destruct (decide (x = taskId)) as [-> | Hne]; tauto.
Qed.

End TaskHandlersFacts.

(** ** Navigation, routing and the sidebar *)

Module NavigationFacts.
Import Directory Router Sync Recorder MenuSection.
Import DirectoryFacts RouterFacts SyncFacts RecorderFacts StringFacts.

Lemma find_menu_some (dynamicMenus : list Menu) (menuId : string) (m : Menu) :
  find_menu dynamicMenus menuId = Some m →
  m ∈ dynamicMenus ∧ menu_id m = menuId
  ∧ find_menu dynamicMenus (menu_id m) = Some m.
Proof.
  intros Hfind. pose proof Hfind as [Hin Hid%bool_decide_eq_true]%find_some_elem.
  split; [done |]. split; [done |]. by rewrite Hid.
Qed.

(** With distinct ids, two menus of the directory with the same id are the
    same menu. *)
Lemma same_id_same_menu (dynamicMenus : list Menu) (m m' : Menu) :
  NoDup (menu_id <$> dynamicMenus) → m ∈ dynamicMenus → m' ∈ dynamicMenus →
  menu_id m' = menu_id m → m' = m.
Proof.
  intros Hnd Hin Hin' Hid.
  pose proof (find_menu_present dynamicMenus m Hin Hnd) as Hm.
  pose proof (find_menu_present dynamicMenus m' Hin' Hnd) as Hm'.
  rewrite Hid in Hm'. congruence.
Qed.

(** X16.  When [navigateToTask] navigates, the task id starts with
    ['dynamic-'] and the target is the current path of a menu that is in the
    directory: [getMenuPath] is never sent to its fallback and writes no
    warning. *)
Theorem navigateToTask_only_live (dynamicMenus : list Menu)
    (dynamicTasks : list (string * list Task)) (taskId : string)
    (menuId : option string) (target : string) :
  navigateToTask dynamicMenus dynamicTasks taskId menuId = Some target →
  starts_with "dynamic-" taskId = true
  ∧ ∃ m, m ∈ dynamicMenus
         ∧ getMenuPath dynamicMenus (menu_id m) = (target, [])
         ∧ target = "/" +:+ str_or (menu_slug m) ("dynamic-menu/" +:+ menu_id m).
Proof.
  unfold navigateToTask.
  destruct (String.eqb taskId ""); [done |].
  destruct (starts_with "dynamic-" taskId); [| done].
  intros Hnav. split; [done |].
  assert (Hlive : ∀ i m, find_menu dynamicMenus i = Some m →
            Some (getMenuPath dynamicMenus (menu_id m)).1 = Some target →
            ∃ m, m ∈ dynamicMenus
                 ∧ getMenuPath dynamicMenus (menu_id m) = (target, [])
                 ∧ target = "/" +:+ str_or (menu_slug m)
                                      ("dynamic-menu/" +:+ menu_id m)).
  { intros i m (Hin & Hid & Hfind)%find_menu_some [= Hpath].
    exists m. split; [done |]. unfold getMenuPath in *. rewrite Hfind in *.
    simpl in Hpath. by rewrite <- Hpath. }
  destruct menuId as [i|]; simpl in Hnav.
  - destruct (String.eqb i "").
    + destruct (List.find _ dynamicTasks) as [[k tasks]|]; [| done].
      destruct (find_menu dynamicMenus k) as [m|] eqn:Hk; [| done].
      by eapply Hlive.
    + destruct (find_menu dynamicMenus i) as [m|] eqn:Hi; [by eapply Hlive |].
      destruct (List.find _ dynamicTasks) as [[k tasks]|]; [| done].
      destruct (find_menu dynamicMenus k) as [m|] eqn:Hk; [| done].
      by eapply Hlive.
  - destruct (List.find _ dynamicTasks) as [[k tasks]|]; [| done].
    destruct (find_menu dynamicMenus k) as [m|] eqn:Hk; [| done].
    by eapply Hlive.
Qed.

(** X17.  Without a usable menu id - none, an empty one, or the id of a menu
    that is gone - [navigateToTask] looks the task up in the loaded tasks:
    when the only menu holding it is a menu of the directory, it navigates
    to that menu's current path. *)
Theorem navigateToTask_searches (dynamicMenus : list Menu)
    (dynamicTasks : list (string * list Task)) (task : string)
    (menuId : option string) (m : Menu) :
  m ∈ dynamicMenus → NoDup (menu_id <$> dynamicMenus) →
  (menuId = None ∨ menuId = Some ""
   ∨ ∃ i, menuId = Some i ∧ i ∉ menu_id <$> dynamicMenus) →
  (∃ tasks t, (menu_id m, tasks) ∈ dynamicTasks ∧ t ∈ tasks ∧ task_id t = task) →
  (∀ k tasks t, (k, tasks) ∈ dynamicTasks → t ∈ tasks → task_id t = task →
                k = menu_id m) →
  navigateToTask dynamicMenus dynamicTasks ("dynamic-" +:+ task) menuId
  = Some (getMenuPath dynamicMenus (menu_id m)).1.
Proof.
  intros Hin Hnd Hid (tasks & t & Hentry & Ht & Htask) Honly.
  unfold navigateToTask. simpl.
  change ("" +:+ task) with task.
  assert (Hprovided :
    match menuId with
    | Some i => if String.eqb i "" then None else find_menu dynamicMenus i
    | None => None
    end = None).
  { destruct Hid as [-> | [-> | (i & -> & Hi)]]; [done | done |].
    destruct (String.eqb i ""); [done | by apply find_menu_absent]. }
  rewrite Hprovided.
  destruct (List.find _ dynamicTasks) as [[k tasks']|] eqn:Hfind.
  - apply find_some_elem in Hfind as [Hk Hhas]. simpl in Hhas.
    apply existsb_exists in Hhas as (t' & Ht'%list_elem_of_In & Heq%bool_decide_eq_true).
    rewrite (Honly k tasks' t' Hk Ht' Heq).
    by rewrite find_menu_present.
  - exfalso. rewrite find_none_iff in Hfind.
    specialize (Hfind _ Hentry). simpl in Hfind.
    assert (Hyes : existsb (λ t0, bool_decide (task_id t0 = task)) tasks = true).
    { apply existsb_exists. exists t. split; [by apply list_elem_of_In |].
      by apply bool_decide_eq_true. }
    congruence.
Qed.

(** X18.  From recording to navigation: the entry recorded for an action in
    menu [m] keeps the task under ['dynamic-<task>'] and the menu under its
    id, and [navigateToTask], given these two values, goes to the slug the
    menu has at that time - after a rename, to the new slug. *)
Theorem recorded_entry_follows_rename (action : Action)
    (task taskName : string) (phaseLabel timestamp performer : JSVal)
    (now : Z) (activityLogs : list (gmap string JSVal))
    (dynamicMenus : list Menu) (dynamicTasks : list (string * list Task))
    (m : Menu) (newSlug : string) :
  m ∈ dynamicMenus → NoDup (menu_id <$> dynamicMenus) →
  menu_id m ≠ "" → newSlug ≠ "" →
  ∃ entry taskId,
    recordActivityEntry
      (action_args action task taskName phaseLabel timestamp performer (menu_id m))
      now activityLogs = entry :: activityLogs
    ∧ entry !! "taskId" = Some (VStr taskId)
    ∧ entry !! "menuId" = Some (VStr (menu_id m))
    ∧ navigateToTask dynamicMenus dynamicTasks taskId (Some (menu_id m))
      = Some ("/" +:+ str_or (menu_slug m) ("dynamic-menu/" +:+ menu_id m))
    ∧ navigateToTask (rename_slug (menu_id m) newSlug dynamicMenus) dynamicTasks
        taskId (Some (menu_id m))
      = Some ("/" +:+ newSlug).
Proof.
  intros Hin Hnd Hid Hnew.
  exists (activityEntry
            (action_args action task taskName phaseLabel timestamp performer
               (menu_id m)) now), ("dynamic-" +:+ task).
  split; [done |]. split.
  { unfold activityEntry. destruct action; by simplify_map_eq. }
  split.
  { rewrite activityEntry_menuId, action_args_menuId. unfold or_else. simpl.
    by destruct (String.eqb_spec (menu_id m) ""). }
  split.
  - rewrite navigateToTask_provided by done. by rewrite getMenuPath_present.
  - set (m' := set_slug (menu_id m) newSlug m).
    assert (Hid' : menu_id m' = menu_id m).
    { unfold m', set_slug. by case_bool_decide. }
    assert (Hslug' : menu_slug m' = Some newSlug).
    { unfold m', set_slug. by rewrite bool_decide_eq_true_2. }
    assert (Hin' : m' ∈ rename_slug (menu_id m) newSlug dynamicMenus).
    { unfold rename_slug. by apply list_elem_of_fmap_2. }
    assert (Hnd' : NoDup (menu_id <$> rename_slug (menu_id m) newSlug dynamicMenus))
      by by rewrite rename_slug_ids.
    pose proof (navigateToTask_provided _ dynamicTasks m' task Hin' Hnd') as Hnav.
    pose proof (getMenuPath_present _ m' Hin' Hnd') as Hpath.
    rewrite Hid' in Hnav, Hpath. rewrite Hnav by done. rewrite Hpath. simpl.
    by rewrite Hslug', str_or_nonempty.
Qed.

(** A slash-free segment is answered by its slug only, never by an id-based
    path. *)
Lemma matches_plain_segment (seg : string) (m : Menu) :
  has_char slash seg = false →
  matches_segment seg m = true →
  menu_type m = "task-list" ∧ menu_slug m = Some seg.
Proof.
  intros Hseg [Hty [Hslug | Halias]]%matches_segment_true; [done |].
  rewrite <- Halias, id_path_has_slash in Hseg. discriminate.
Qed.

Lemma rename_slug_elem (menuId newSlug : string) (dynamicMenus : list Menu)
    (y : Menu) :
  y ∈ rename_slug menuId newSlug dynamicMenus →
  ∃ m', m' ∈ dynamicMenus ∧ y = set_slug menuId newSlug m'.
Proof.
  unfold rename_slug. intros (m' & -> & Hin)%list_elem_of_fmap. by exists m'.
Qed.

Lemma delete_menu_elem (menuId : string) (dynamicMenus : list Menu) (y : Menu) :
  y ∈ delete_menu menuId dynamicMenus ↔ y ∈ dynamicMenus ∧ menu_id y ≠ menuId.
Proof.
  unfold delete_menu. rewrite list_elem_of_In, filter_In, <- list_elem_of_In.
  by rewrite negb_true_iff, bool_decide_eq_false.
Qed.

Lemma dynamicRoute_set_slug (menuId newSlug : string) (m : Menu) :
  dynamicRoute (set_slug menuId newSlug m) = dynamicRoute m.
Proof. unfold set_slug. by case_bool_decide. Qed.

Section RouterCompositions.

Variable normalizeRoutePath : string → string.
Variable config : gmap string Route.
Variable defaultRoute : Route.

Local Abbreviation resolve' := (resolve normalizeRoutePath config defaultRoute).

(** What [resolve] returns for a normal-form, non-static path ["/seg"]. *)
Lemma resolve_dynamic_segment (dynamicMenus : list Menu) (seg : string) :
  normalizeRoutePath ("/" +:+ seg) = "/" +:+ seg →
  config !! ("/" +:+ seg) = None →
  resolve' dynamicMenus ("/" +:+ seg)
  = match List.find (matches_segment seg) dynamicMenus with
    | Some m => mkResolved ("/" +:+ seg) (dynamicRoute m) false
    | None => mkResolved "/" defaultRoute true
    end.
Proof.
  intros Hnorm Hcfg. unfold resolve.
  by rewrite Hnorm, Hcfg, drop_leading_slash.
Qed.

(** X19.  A route that [resolve] builds from a menu (the normalized path
    starting with ['/'], as the code takes it to, and not being a static
    route) is never answered by the "menu not found" card: on the same
    directory, [showDynamicMenuSection] finds a menu for the [menuId] of the
    route; and the path of the outcome is ['/'] followed by the slug of
    that menu or by its id-based segment. *)
Theorem resolved_menu_is_shown (dynamicMenus : list Menu) (p : string) :
  starts_with "/" (normalizeRoutePath p) = true →
  config !! normalizeRoutePath p = None →
  notFound (resolve' dynamicMenus p) = false →
  ∃ m shown,
    m ∈ dynamicMenus ∧ menu_type m = "task-list"
    ∧ route (resolve' dynamicMenus p) = dynamicRoute m
    ∧ route (resolve' dynamicMenus p) !! "menuId" = Some (VStr (menu_id m))
    ∧ showDynamicMenuSection dynamicMenus (menu_id m) = MenuContent shown
    ∧ menu_id shown = menu_id m
    ∧ (path (resolve' dynamicMenus p) = "/" +:+ default "" (menu_slug m)
       ∨ path (resolve' dynamicMenus p) = "/dynamic-menu/" +:+ menu_id m).
Proof.
  intros Hslash%leading_slash_segment Hcfg. unfold resolve. rewrite Hcfg.
  destruct (List.find _ dynamicMenus) as [m|] eqn:Hfind; [| done].
  intros _. simpl.
  apply find_some_elem in Hfind as [Hin [Hty Hseg]%matches_segment_true].
  assert (Hpath : normalizeRoutePath p = "/" +:+ default "" (menu_slug m)
                  ∨ normalizeRoutePath p = "/dynamic-menu/" +:+ menu_id m).
  { rewrite Hslash. destruct Hseg as [-> | <-]; [by left | by right]. }
  unfold showDynamicMenuSection.
  destruct (find_menu dynamicMenus (menu_id m)) as [shown|] eqn:Hshown.
  - exists m, shown. rewrite Hshown.
    apply find_menu_some in Hshown as (_ & Hid & _).
    destruct (dynamicRoute_fields m) as (_ & _ & Hmenu & _). split_and!; done.
  - exfalso. unfold find_menu in Hshown. rewrite find_none_iff in Hshown.
    specialize (Hshown m Hin). by rewrite bool_decide_eq_true_2 in Hshown.
Qed.

(** X20.  Once a menu is deleted from the directory, its slug resolves to
    the not-found outcome (no other task-list menu having that slug), its
    section shows the "menu not found" card, [getMenuPath] falls back to
    ["/tongquan"], and [navigateToTask] with its id and no loaded task does
    nothing. *)
Theorem deleted_menu_is_gone (dynamicMenus : list Menu) (m : Menu)
    (slug task : string) :
  m ∈ dynamicMenus →
  menu_slug m = Some slug → has_char slash slug = false →
  (∀ m', m' ∈ dynamicMenus → menu_type m' = "task-list" →
         menu_slug m' = Some slug → menu_id m' = menu_id m) →
  normalizeRoutePath ("/" +:+ slug) = "/" +:+ slug →
  config !! ("/" +:+ slug) = None →
  resolve' (delete_menu (menu_id m) dynamicMenus) ("/" +:+ slug)
  = mkResolved "/" defaultRoute true
  ∧ showDynamicMenuSection (delete_menu (menu_id m) dynamicMenus) (menu_id m)
    = MenuNotFound
  ∧ (getMenuPath (delete_menu (menu_id m) dynamicMenus) (menu_id m)).1
    = "/tongquan"
  ∧ navigateToTask (delete_menu (menu_id m) dynamicMenus) []
      ("dynamic-" +:+ task) (Some (menu_id m)) = None.
Proof.
  intros Hin Hslug Hseg Honly Hnorm Hcfg.
  pose proof (find_menu_absent _ _ (delete_menu_absent dynamicMenus (menu_id m)))
    as Hgone.
  split; [| split; [| split]].
  - rewrite resolve_dynamic_segment by done.
    destruct (List.find _ _) as [y|] eqn:Hfind; [| done].
    apply find_some_elem in Hfind as [[Hy Hne]%delete_menu_elem Hmatch].
    apply matches_plain_segment in Hmatch as [Hty Hs]; [| done].
    by destruct Hne; apply Honly.
  - unfold showDynamicMenuSection. by rewrite Hgone.
  - unfold getMenuPath. by rewrite Hgone.
  - unfold navigateToTask. simpl. rewrite Hgone.
    by destruct (String.eqb (menu_id m) "").
Qed.

(** X21.  Renaming the slug of a task-list menu from [a] to [b] moves its
    route: before the rename ["/a"] resolves to the menu and ["/b"] to the
    not-found outcome, after it ["/b"] resolves to the same menu - same
    [menuId] and [menuName] - and ["/a"] to the not-found outcome.  (Ids
    distinct; [a] and [b] slash-free, in normal form, not static, and used
    by no other menu.) *)
Theorem rename_moves_route (dynamicMenus : list Menu) (m : Menu) (a b : string) :
  m ∈ dynamicMenus → NoDup (menu_id <$> dynamicMenus) →
  menu_type m = "task-list" → menu_slug m = Some a → a ≠ b →
  has_char slash a = false → has_char slash b = false →
  (∀ m', m' ∈ dynamicMenus → menu_id m' ≠ menu_id m →
         menu_slug m' ≠ Some a ∧ menu_slug m' ≠ Some b) →
  normalizeRoutePath ("/" +:+ a) = "/" +:+ a →
  normalizeRoutePath ("/" +:+ b) = "/" +:+ b →
  config !! ("/" +:+ a) = None → config !! ("/" +:+ b) = None →
  resolve' dynamicMenus ("/" +:+ a)
  = mkResolved ("/" +:+ a) (dynamicRoute m) false
  ∧ resolve' dynamicMenus ("/" +:+ b) = mkResolved "/" defaultRoute true
  ∧ resolve' (rename_slug (menu_id m) b dynamicMenus) ("/" +:+ a)
    = mkResolved "/" defaultRoute true
  ∧ resolve' (rename_slug (menu_id m) b dynamicMenus) ("/" +:+ b)
    = mkResolved ("/" +:+ b) (dynamicRoute m) false.
Proof.
  intros Hin Hnd Hty Hslug Hab Ha Hb Hothers Hna Hnb Hca Hcb.
  assert (Hsame : ∀ m', m' ∈ dynamicMenus → menu_id m' = menu_id m → m' = m).
  { intros m' Hin' Hid. by eapply same_id_same_menu. }
  rewrite !resolve_dynamic_segment by done.
  split; [| split; [| split]].
  - rewrite (find_unique _ _ m); [done | done | |].
    + apply matches_segment_true. auto.
    + intros m' Hin' [_ Hs]%matches_plain_segment; [| done].
      destruct (decide (menu_id m' = menu_id m)) as [Hid | Hne]; [by apply Hsame |].
      by destruct (Hothers m' Hin' Hne).
  - destruct (List.find _ _) as [y|] eqn:Hfind; [| done].
    apply find_some_elem in Hfind as [Hy [_ Hs]%matches_plain_segment]; [| done].
    destruct (decide (menu_id y = menu_id m)) as [Hid | Hne].
    + rewrite (Hsame y Hy Hid) in Hs. congruence.
    + by destruct (Hothers y Hy Hne).
  - destruct (List.find _ _) as [y|] eqn:Hfind; [| done].
    apply find_some_elem in Hfind as [Hy [_ Hs]%matches_plain_segment]; [| done].
    apply rename_slug_elem in Hy as (m' & Hin' & ->).
    unfold set_slug in Hs. case_bool_decide as Hid; simpl in Hs; [congruence |].
    by destruct (Hothers m' Hin' Hid).
  - rewrite (find_unique _ _ (set_slug (menu_id m) b m)).
    + by rewrite dynamicRoute_set_slug.
    + unfold rename_slug. by apply list_elem_of_fmap_2.
    + apply matches_segment_true. unfold set_slug.
      rewrite bool_decide_eq_true_2 by done. simpl. auto.
    + intros y Hy [_ Hs]%matches_plain_segment; [| done].
      apply rename_slug_elem in Hy as (m' & Hin' & ->).
      destruct (decide (menu_id m' = menu_id m)) as [Hid | Hne].
      * by rewrite (Hsame m' Hin' Hid).
      * unfold set_slug in Hs. rewrite bool_decide_eq_false_2 in Hs by done.
        by destruct (Hothers m' Hin' Hne).
Qed.

(** X22.  Paths round-trip through the router: for a task-list menu of a
    directory with distinct ids, slash-free slugs and no slug shared
    between task-list menus, the path that [getMenuPath] gives - the slug
    path, or the id-based path of a menu without slug - resolves back to
    that very menu (the path being in normal form and not static). *)
Theorem getMenuPath_resolves_back (dynamicMenus : list Menu) (m : Menu) :
  m ∈ dynamicMenus → NoDup (menu_id <$> dynamicMenus) →
  menu_type m = "task-list" →
  (∀ m' slug, m' ∈ dynamicMenus → menu_slug m' = Some slug →
              has_char slash slug = false) →
  (∀ m' slug, m' ∈ dynamicMenus → menu_type m' = "task-list" →
              menu_slug m' = Some slug → menu_slug m = Some slug → m' = m) →
  normalizeRoutePath (getMenuPath dynamicMenus (menu_id m)).1
  = (getMenuPath dynamicMenus (menu_id m)).1 →
  config !! (getMenuPath dynamicMenus (menu_id m)).1 = None →
  resolve' dynamicMenus (getMenuPath dynamicMenus (menu_id m)).1
  = mkResolved (getMenuPath dynamicMenus (menu_id m)).1 (dynamicRoute m) false.
Proof.
  intros Hin Hnd Hty Hplain Hshared.
  rewrite getMenuPath_present by done. simpl.
  assert (Hseg : (∃ slug, menu_slug m = Some slug ∧ slug ≠ ""
                          ∧ str_or (menu_slug m) ("dynamic-menu/" +:+ menu_id m) = slug)
                 ∨ ((∀ slug, menu_slug m = Some slug → slug = "")
                    ∧ str_or (menu_slug m) ("dynamic-menu/" +:+ menu_id m)
                      = "dynamic-menu/" +:+ menu_id m)).
  { unfold str_or. destruct (menu_slug m) as [slug|]; [| right; split; [done | done]].
    destruct (String.eqb_spec slug "") as [-> | Hne].
    - right. split; [by intros ? [= <-] | done].
    - left. by exists slug. }
  destruct Hseg as [(slug & Hslug & Hne & ->) | [Hnone ->]];
    intros Hnorm Hcfg; rewrite resolve_dynamic_segment by done.
  - pose proof (Hplain m slug Hin Hslug) as Hplain_m.
    rewrite (find_unique _ _ m); [done | done | |].
    + apply matches_segment_true. auto.
    + intros m' Hin' [Hty' Hs]%matches_plain_segment; [| done].
      by apply (Hshared m' slug).
  - rewrite (find_unique _ _ m); [done | done | |].
    + apply matches_segment_true. auto.
    + intros m' Hin' [Hty' [Hs | Halias]]%matches_segment_true.
      * pose proof (Hplain m' _ Hin' Hs) as Hbad.
        by rewrite id_path_has_slash in Hbad.
      * apply (inj (String.append "dynamic-menu/")) in Halias.
        by eapply same_id_same_menu.
Qed.

End RouterCompositions.

(** The anchor of one menu, with its [href]. *)
Local Abbreviation anchor href m :=
  ("<a class=" +:+ dquote +:+ "nav-link" +:+ dquote +:+ " href="
     +:+ dquote +:+ href +:+ dquote +:+ ">" +:+ menu_icon m +:+ " "
     +:+ menu_name m +:+ "</a>").

(** The [menuPath] computed by [renderSidebarDynamic]. *)
Local Abbreviation sidebar_path m :=
  (match menu_slug m with
   | Some s => if String.eqb s "" then "/dynamic-menu/" +:+ menu_id m
               else "/" +:+ s
   | None => "/dynamic-menu/" +:+ menu_id m
   end).

(** The sidebar loop appends one link per task-list menu. *)
Lemma sidebar_loop (menus : list Menu) (html : string) :
  fold_left sidebar_link menus html
  = html +:+ foldr (λ m rest, anchor (sidebar_path m) m +:+ rest) ""
                   (filter (λ m, menu_type m = "task-list") menus).
Proof.
  revert html. induction menus as [|m menus IH]; intros html; simpl.
  - by rewrite append_empty_r.
  - rewrite IH. unfold sidebar_link.
    destruct (decide (menu_type m = "task-list")) as [Hty | Hty].
    + rewrite filter_cons_True by done. rewrite (bool_decide_eq_true_2 _ Hty).
      simpl. by rewrite append_assoc.
    + rewrite filter_cons_False by done. by rewrite (bool_decide_eq_false_2 _ Hty).
Qed.

Lemma links_ext (f g : Menu → string) (menus : list Menu) :
  (∀ m, m ∈ menus → f m = g m) →
  foldr (λ m rest, f m +:+ rest) "" menus = foldr (λ m rest, g m +:+ rest) "" menus.
Proof.
  induction menus as [|m menus IH]; intros Hext; simpl; [done |].
  rewrite Hext by left. rewrite IH; [done |]. intros m' Hm'. apply Hext. by right.
Qed.

(** X23.  The sidebar is the overview link followed by one link per
    task-list menu, in directory order, and (ids being distinct) the [href]
    of each link is the path [getMenuPath] gives for that menu: the sidebar
    and the activity log lead to the same place. *)
Theorem sidebar_agrees_with_getMenuPath (page : Page) :
  NoDup (menu_id <$> dynamicMenus page) →
  main_navigation (renderSidebarDynamic page)
  = ("<a class=" +:+ dquote +:+ "nav-link" +:+ dquote +:+ " href="
       +:+ dquote +:+ "/tongquan" +:+ dquote +:+ ">📊 Tổng Quan</a>")
    +:+ foldr (λ m rest,
                 anchor (getMenuPath (dynamicMenus page) (menu_id m)).1 m +:+ rest)
              "" (filter (λ m, menu_type m = "task-list") (dynamicMenus page)).
Proof.
  intros Hnd. unfold renderSidebarDynamic. simpl. rewrite sidebar_loop.
  f_equal.
  apply (links_ext (λ m, anchor (sidebar_path m) m)
                   (λ m, anchor (getMenuPath (dynamicMenus page) (menu_id m)).1 m)).
  intros m [Hty Hin]%list_elem_of_filter.
  rewrite getMenuPath_present by done. simpl. unfold str_or.
  destruct (menu_slug m) as [slug|]; [| done].
  by destruct (String.eqb slug "").
Qed.

(** X24.  A menu that is not a task list has no link in the sidebar: with or
    without it the sidebar HTML is the same. *)
Theorem sidebar_skips_other_types (before after : list Menu) (m : Menu)
    (nav nav' : string) :
  menu_type m ≠ "task-list" →
  main_navigation (renderSidebarDynamic (mkPage (before ++ m :: after) nav))
  = main_navigation (renderSidebarDynamic (mkPage (before ++ after) nav')).
Proof.
  intros Hty. unfold renderSidebarDynamic. simpl. rewrite !sidebar_loop.
  by rewrite !filter_app, filter_cons_False.
Qed.

(** X25.  After a snapshot, [getMenuPath] answers from the snapshot alone:
    for a document of the snapshot (menu ids distinct) it gives the path of
    that document's slug, or the id-based path when the document has no
    slug; for any other id it gives the fallback - whatever menus the page
    held before. *)
Theorem snapshot_drives_paths (snapshot : list MenuDoc) (page : Page) :
  NoDup (menu_id <$> (menu_of_doc <$> snapshot)) →
  dynamicMenus (onSnapshot snapshot page) = menu_of_doc <$> snapshot
  ∧ (∀ doc, doc ∈ snapshot →
       (getMenuPath (dynamicMenus (onSnapshot snapshot page))
                    (default (doc_id doc) (data_id doc))).1
       = "/" +:+ str_or (data_slug doc)
                        ("dynamic-menu/" +:+ default (doc_id doc) (data_id doc)))
  ∧ (∀ menuId, menuId ∉ menu_id <$> (menu_of_doc <$> snapshot) →
       (getMenuPath (dynamicMenus (onSnapshot snapshot page)) menuId).1
       = "/tongquan").
Proof.
  intros Hnd.
  assert (Hmenus : dynamicMenus (onSnapshot snapshot page) = menu_of_doc <$> snapshot).
  { by rewrite onSnapshot_spec. }
  rewrite Hmenus. split; [done |]. split.
  - intros doc Hdoc.
    pose proof (getMenuPath_present (menu_of_doc <$> snapshot) (menu_of_doc doc))
      as Hpath.
    simpl in Hpath. rewrite Hpath; [done | by apply list_elem_of_fmap_2 | done].
  - intros menuId Hnot. unfold getMenuPath. by rewrite find_menu_absent.
Qed.

End NavigationFacts.

(** ** More worked scenarios *)

Module MoreScenarios.
Import Directory Router Sync Recorder TaskItem TaskList TaskHandlers MenuSection.
Import ActivityLog Samples MoreSamples.
Import ActivityLogFacts TaskHandlersFacts NavigationFacts.

Local Abbreviation resolve0 := (resolve keepPath staticConfig coverRoute).

Lemma run_page_not_empty_witness :
  (∀ n, Some 10%Z = Some n → (0 ≤ n)%Z)
  ∧ activities (run [NextPage; GoToPage 7; NextPage; PreviousPage]
                    (constructor (Some (seq 0 25)) (Some 10%Z))) ≠ []
  ∧ getCurrentPageData (run [NextPage; GoToPage 7; NextPage; PreviousPage]
                            (constructor (Some (seq 0 25)) (Some 10%Z))) ≠ [].
Proof.
  assert (Hsize : ∀ n, Some 10%Z = Some n → (0 ≤ n)%Z) by (intros n [= <-]; lia).
  assert (Hacts : activities (run [NextPage; GoToPage 7; NextPage; PreviousPage]
                    (constructor (Some (seq 0 25)) (Some 10%Z))) ≠ [])
    by (vm_compute; discriminate).
  split; [exact Hsize |]. split; [exact Hacts |].
  exact (run_page_not_empty (Some (seq 0 25)) (Some 10%Z)
           [NextPage; GoToPage 7; NextPage; PreviousPage] Hsize Hacts).
Defined.

Lemma pages_cover_activities_witness :
  (0 < itemsPerPage midLog)%Z
  ∧ concat ((λ page, getCurrentPageData
                       (mkState (activities midLog) (itemsPerPage midLog) page))
              <$> seqZ 1 (getTotalPages midLog))
    = activities midLog.
Proof.
  assert (Hipp : (0 < itemsPerPage midLog)%Z) by (vm_compute; reflexivity).
  split; [exact Hipp |]. exact (pages_cover_activities midLog Hipp).
Defined.

Lemma shown_range_counts_rows_witness :
  (0 < itemsPerPage midLog)%Z
  ∧ (1 ≤ currentPage midLog ≤ getTotalPages midLog)%Z
  ∧ ∃ a b, shown_range midLog = Some (a, b)
           ∧ Z.of_nat (length (getCurrentPageData midLog)) = (b - a + 1)%Z.
Proof.
  assert (Hipp : (0 < itemsPerPage midLog)%Z) by (vm_compute; reflexivity).
  assert (Hpage : (1 ≤ currentPage midLog ≤ getTotalPages midLog)%Z)
    by (vm_compute; split; discriminate).
  split; [exact Hipp |]. split; [exact Hpage |].
  destruct (shown_range_counts_rows midLog Hipp Hpage)
    as (a & b & Hrange & _ & _ & _ & Hrows & _).
  exists a, b. split; [exact Hrange | exact Hrows].
Defined.

Lemma next_previous_inverse_witness :
  (1 ≤ currentPage midLog ≤ getTotalPages midLog)%Z
  ∧ previousPage (nextPage midLog) = midLog
  ∧ nextPage (previousPage midLog) = midLog.
Proof.
  assert (Hpage : (1 ≤ currentPage midLog ≤ getTotalPages midLog)%Z)
    by (vm_compute; split; discriminate).
  split; [exact Hpage |].
  destruct (next_previous_inverse midLog Hpage) as (Hnext & Hprev & _).
  split.
  - apply Hnext. vm_compute. reflexivity.
  - apply Hprev. vm_compute. reflexivity.
Defined.

Lemma getPageNumbers_bar_witness :
  (1 ≤ currentPage longLog ≤ getTotalPages longLog)%Z
  ∧ PageNo (currentPage longLog) ∈ getPageNumbers longLog
  ∧ (length (getPageNumbers longLog) ≤ 7)%nat
  ∧ well_spaced (getPageNumbers longLog) = true.
Proof.
  assert (Hpage : (1 ≤ currentPage longLog ≤ getTotalPages longLog)%Z)
    by (vm_compute; split; discriminate).
  split; [exact Hpage |].
  destruct (getPageNumbers_bar longLog Hpage) as (_ & Hcur & _ & Hlen & _ & Hgap).
  split; [exact Hcur |]. split; [exact Hlen | exact Hgap].
Defined.

Example getPageNumbers_longLog :
  getPageNumbers longLog
  = [PageNo 1; Ellipsis; PageNo 4; PageNo 5; PageNo 6; Ellipsis; PageNo 10].
Proof. vm_compute. reflexivity. Qed.

Lemma more_ids_distinct :
  NoDup (menu_id <$> [phase1; phase2; legacy_phase; docs_link]).
Proof. apply (bool_decide_unpack _). vm_compute. exact I. Defined.

Lemma getMenuSlug_vs_getMenuPath_witness :
  legacy_phase ∈ [phase1; phase2; legacy_phase; docs_link]
  ∧ NoDup (menu_id <$> [phase1; phase2; legacy_phase; docs_link])
  ∧ menu_id legacy_phase ≠ ""
  ∧ getMenuSlug "m3" [phase1; phase2; legacy_phase; docs_link] = "m3"
  ∧ (getMenuPath [phase1; phase2; legacy_phase; docs_link] "m3").1
    = "/dynamic-menu/m3".
Proof.
  assert (Hin : legacy_phase ∈ [phase1; phase2; legacy_phase; docs_link])
    by (right; right; left).
  assert (Hid : menu_id legacy_phase ≠ "") by discriminate.
  split; [exact Hin |]. split; [exact more_ids_distinct |]. split; [exact Hid |].
  destruct (getMenuSlug_vs_getMenuPath [phase1; phase2; legacy_phase; docs_link]
              legacy_phase Hin more_ids_distinct Hid) as [_ Hslugless].
  apply Hslugless. left. reflexivity.
Defined.

Lemma completed_task_is_completed_witness :
  trim_ascii "  https://example.com/report  " ≠ ""
  ∧ web_url (trim_ascii "  https://example.com/report  ") = true
  ∧ ∃ state,
      (handleTaskComplete trim_ascii web_url "t1" "giaidoan1"
         (Some "  https://example.com/report  ")
         "2025-01-12T08:00:00.000Z" "2025-01-12T08:00:00.001Z" ∅).1 !! "t1"
      = Some state
      ∧ isTaskCompleted toLowerCase_ascii trim_ascii ∅ state = Ok true.
Proof.
  assert (Hlink : trim_ascii "  https://example.com/report  " ≠ "")
    by (vm_compute; discriminate).
  assert (Hurl : web_url (trim_ascii "  https://example.com/report  ") = true)
    by (vm_compute; reflexivity).
  split; [exact Hlink |]. split; [exact Hurl |].
  destruct (completed_task_is_completed trim_ascii web_url "t1" "giaidoan1"
              "  https://example.com/report  " "2025-01-12T08:00:00.000Z"
              "2025-01-12T08:00:00.001Z" ∅ Hlink Hurl)
    as (state & Hstate & Hdone & _).
  exists state. split; [exact Hstate | apply Hdone].
Defined.

Lemma reopened_task_still_completed_witness :
  trim_ascii "https://example.com/report" ≠ ""
  ∧ web_url (trim_ascii "https://example.com/report") = true
  ∧ status_is_text {[ "status" := VStr "pending" ]}
  ∧ status_is_text (default ∅ ((∅ : gmap string (gmap string JSVal)) !! "t1"))
  ∧ ∃ state,
      handleTaskEdit "t1" "2025-01-13T09:30:00.000Z"
        (handleTaskComplete trim_ascii web_url "t1" "giaidoan1"
           (Some "https://example.com/report")
           "2025-01-12T08:00:00.000Z" "2025-01-12T08:00:00.001Z" ∅).1 !! "t1"
      = Some state
      ∧ state !! "completed" = Some (VBool false)
      ∧ isTaskCompleted toLowerCase_ascii trim_ascii
          {[ "status" := VStr "pending" ]} state = Ok true.
Proof.
  assert (Hlink : trim_ascii "https://example.com/report" ≠ "")
    by (vm_compute; discriminate).
  assert (Hurl : web_url (trim_ascii "https://example.com/report") = true)
    by (vm_compute; reflexivity).
  assert (Htask : status_is_text {[ "status" := VStr "pending" ]}).
  { right. exists "pending". vm_compute. reflexivity. }
  assert (Hstate : status_is_text
                     (default ∅ ((∅ : gmap string (gmap string JSVal)) !! "t1"))).
  { left. vm_compute. reflexivity. }
  split; [exact Hlink |]. split; [exact Hurl |]. split; [exact Htask |].
  split; [exact Hstate |].
  destruct (reopened_task_still_completed trim_ascii web_url toLowerCase_ascii
              "t1" "giaidoan1" "https://example.com/report"
              "2025-01-12T08:00:00.000Z" "2025-01-12T08:00:00.001Z"
              "2025-01-13T09:30:00.000Z" {[ "status" := VStr "pending" ]} ∅
              Hlink Hurl Htask Hstate)
    as (state & Hget & Hflag & _ & Hdone & _).
  exists state. split; [exact Hget |]. split; [exact Hflag | exact Hdone].
Defined.

Lemma handleTaskEdit_without_state_witness :
  ({[ "t1" := completedState ]} : gmap string (gmap string JSVal)) !! "t2" = None
  ∧ inherited_name "t2" = false
  ∧ dom (default ∅ (handleTaskEdit "t2" "2025-01-13T09:30:00.000Z"
                      {[ "t1" := completedState ]} !! "t2"))
    = ({[ "completed"; "completedAt"; "updatedAt" ]} : gset string).
Proof.
  assert (Hnone : ({[ "t1" := completedState ]}
                     : gmap string (gmap string JSVal)) !! "t2" = None)
    by (vm_compute; reflexivity).
  assert (Hname : inherited_name "t2" = false) by (vm_compute; reflexivity).
  split; [exact Hnone |]. split; [exact Hname |].
  destruct (handleTaskEdit_without_state "t2" "2025-01-13T09:30:00.000Z"
              {[ "t1" := completedState ]} Hnone Hname) as (_ & Hdom & _).
  exact Hdom.
Defined.

Lemma getTaskStates_fills_witness :
  (∀ t, Some t ∈ [Some (mkTask "abc123"); None; Some (mkTask "def456")] →
        inherited_name (task_id t) = false)
  ∧ global_taskState
      (getTaskStates [Some (mkTask "abc123"); None; Some (mkTask "def456")]
                     {[ "abc123" := completedState ]} 0) !! "abc123"
    = Some completedState
  ∧ ∃ entry,
      global_taskState
        (getTaskStates [Some (mkTask "abc123"); None; Some (mkTask "def456")]
                       {[ "abc123" := completedState ]} 0) !! "def456"
      = Some entry
      ∧ states
          (getTaskStates [Some (mkTask "abc123"); None; Some (mkTask "def456")]
                         {[ "abc123" := completedState ]} 0) !! "def456"
        = Some entry.
Proof.
  assert (Hnames : ∀ t,
            Some t ∈ [Some (mkTask "abc123"); None; Some (mkTask "def456")] →
            inherited_name (task_id t) = false).
  { intros t Ht.
    apply elem_of_cons in Ht as [[= ->] | Ht]; [vm_compute; reflexivity |].
    apply elem_of_cons in Ht as [[=] | Ht].
    apply list_elem_of_singleton in Ht as [= ->]. vm_compute. reflexivity. }
  split; [exact Hnames |].
  destruct (getTaskStates_fills
              [Some (mkTask "abc123"); None; Some (mkTask "def456")]
              {[ "abc123" := completedState ]} 0 Hnames)
    as (Hkept & Hfilled & _).
  split.
  - apply Hkept. vm_compute. reflexivity.
  - apply (Hfilled (mkTask "def456")); [| discriminate].
    right. right. left.
Defined.

Lemma handleTaskComplete_all_or_nothing_witness :
  inherited_name "t1" = false
  ∧ ∃ state,
      (handleTaskComplete trim_ascii web_url "t1" "giaidoan1"
         (Some "  https://example.com/proof ") "2025-01-12T08:00:00.000Z"
         "2025-01-12T08:00:01.000Z" ∅).2
      = Completed "t1" "giaidoan1" state
      ∧ state !! "link" = Some (VStr "https://example.com/proof")
      ∧ state !! "completed" = Some (VBool true).
Proof.
  assert (Hname : inherited_name "t1" = false) by (vm_compute; reflexivity).
  split; [exact Hname |].
  destruct (handleTaskComplete_all_or_nothing trim_ascii web_url "t1" "giaidoan1"
              (Some "  https://example.com/proof ") "2025-01-12T08:00:00.000Z"
              "2025-01-12T08:00:01.000Z" ∅ Hname)
    as [(message & _ & [Hinput | (value & [= <-] & Hbad)])
       | (value & state & taskState' & [= <-] & _ & _ & Hrun & _ & Hdone & Hlink & _)].
  - discriminate Hinput.
  - exfalso. vm_compute in Hbad. destruct Hbad as [Hbad | Hbad]; discriminate Hbad.
  - exists state. rewrite Hrun. split; [reflexivity |].
    split; [exact Hlink | exact Hdone].
Defined.

(** Case analysis on membership in a written-out list. *)
Ltac each_member H :=
  repeat (apply elem_of_cons in H as [H | H]);
  try (by apply elem_of_nil in H).

Lemma navigateToTask_only_live_witness :
  navigateToTask [phase1; phase2] loadedTasks "dynamic-abc123" None
  = Some "/giaidoan2"
  ∧ starts_with "dynamic-" "dynamic-abc123" = true
  ∧ ∃ m, m ∈ [phase1; phase2]
         ∧ getMenuPath [phase1; phase2] (menu_id m) = ("/giaidoan2", []).
Proof.
  assert (Hnav : navigateToTask [phase1; phase2] loadedTasks "dynamic-abc123" None
                 = Some "/giaidoan2") by (vm_compute; reflexivity).
  split; [exact Hnav |].
  destruct (navigateToTask_only_live [phase1; phase2] loadedTasks
              "dynamic-abc123" None "/giaidoan2" Hnav)
    as (Hprefix & m & Hin & Hpath & _).
  split; [exact Hprefix |]. exists m. split; [exact Hin | exact Hpath].
Defined.

Lemma navigateToTask_searches_witness :
  phase2 ∈ [phase1; phase2]
  ∧ NoDup (menu_id <$> [phase1; phase2])
  ∧ navigateToTask [phase1; phase2] loadedTasks ("dynamic-" +:+ "def456")
      (Some "deleted-menu")
    = Some (getMenuPath [phase1; phase2] (menu_id phase2)).1.
Proof.
  assert (Hin : phase2 ∈ [phase1; phase2]) by (right; left).
  assert (Hnd : NoDup (menu_id <$> [phase1; phase2])).
  { apply (bool_decide_unpack _). vm_compute. exact I. }
  split; [exact Hin |]. split; [exact Hnd |].
  apply (navigateToTask_searches [phase1; phase2] loadedTasks "def456"
           (Some "deleted-menu") phase2 Hin Hnd).
  - right. right. exists "deleted-menu". split; [reflexivity |].
    apply (bool_decide_unpack _). vm_compute. exact I.
  - exists [mkTask "abc123"; mkTask "def456"], (mkTask "def456").
    split; [left | split; [right; left | reflexivity]].
  - intros k tasks t Hk Ht Htask. unfold loadedTasks in Hk.
    each_member Hk. by injection Hk as -> _.
Defined.

Lemma recorded_entry_follows_rename_witness :
  phase1 ∈ [phase1; phase2]
  ∧ NoDup (menu_id <$> [phase1; phase2])
  ∧ menu_id phase1 ≠ "" ∧ "giai-doan-1" ≠ ""
  ∧ ∃ entry taskId,
      recordActivityEntry
        (action_args SaveComment "abc123" "Setup Database" VUndefined VUndefined
                     VUndefined (menu_id phase1))
        1736668800000 [] = [entry]
      ∧ navigateToTask (rename_slug (menu_id phase1) "giai-doan-1" [phase1; phase2])
          [] taskId (Some (menu_id phase1))
        = Some ("/" +:+ "giai-doan-1").
Proof.
  assert (Hin : phase1 ∈ [phase1; phase2]) by left.
  assert (Hnd : NoDup (menu_id <$> [phase1; phase2])).
  { apply (bool_decide_unpack _). vm_compute. exact I. }
  assert (Hid : menu_id phase1 ≠ "") by discriminate.
  assert (Hnew : "giai-doan-1" ≠ "") by discriminate.
  split; [exact Hin |]. split; [exact Hnd |]. split; [exact Hid |].
  split; [exact Hnew |].
  destruct (recorded_entry_follows_rename SaveComment "abc123" "Setup Database"
              VUndefined VUndefined VUndefined 1736668800000 []
              [phase1; phase2] [] phase1 "giai-doan-1" Hin Hnd Hid Hnew)
    as (entry & taskId & Hlog & _ & _ & _ & Hnav).
  exists entry, taskId. split; [exact Hlog | exact Hnav].
Defined.

Lemma resolved_menu_is_shown_witness :
  starts_with "/" (keepPath "/dynamic-menu/m3") = true
  ∧ staticConfig !! keepPath "/dynamic-menu/m3" = None
  ∧ notFound (resolve0 [phase1; legacy_phase] "/dynamic-menu/m3") = false
  ∧ ∃ m shown,
      m ∈ [phase1; legacy_phase]
      ∧ showDynamicMenuSection [phase1; legacy_phase] (menu_id m) = MenuContent shown.
Proof.
  assert (Hslash : starts_with "/" (keepPath "/dynamic-menu/m3") = true)
    by reflexivity.
  split; [exact Hslash |].
  assert (Hcfg : staticConfig !! keepPath "/dynamic-menu/m3" = None)
    by (vm_compute; reflexivity).
  assert (Hfound : notFound (resolve0 [phase1; legacy_phase] "/dynamic-menu/m3")
                   = false) by (vm_compute; reflexivity).
  split; [exact Hcfg |]. split; [exact Hfound |].
  destruct (resolved_menu_is_shown keepPath staticConfig coverRoute
              [phase1; legacy_phase] "/dynamic-menu/m3" Hslash Hcfg Hfound)
    as (m & shown & Hin & _ & _ & _ & Hshown & _).
  exists m, shown. split; [exact Hin | exact Hshown].
Defined.

Lemma deleted_menu_is_gone_witness :
  phase1 ∈ [phase1; phase2]
  ∧ resolve0 (delete_menu "m1" [phase1; phase2]) "/giaidoan1"
    = mkResolved "/" coverRoute true
  ∧ showDynamicMenuSection (delete_menu "m1" [phase1; phase2]) "m1" = MenuNotFound.
Proof.
  assert (Hin : phase1 ∈ [phase1; phase2]) by left.
  split; [exact Hin |].
  destruct (deleted_menu_is_gone keepPath staticConfig coverRoute
              [phase1; phase2] phase1 "giaidoan1" "abc123")
    as (Hroute & Hshown & _).
  - exact Hin.
  - reflexivity.
  - vm_compute. reflexivity.
  - intros m' Hm' Hty Hslug. each_member Hm'; subst m'; [reflexivity |].
    discriminate Hslug.
  - reflexivity.
  - vm_compute. reflexivity.
  - split; [exact Hroute | exact Hshown].
Defined.

Lemma rename_moves_route_witness :
  phase1 ∈ [phase1; phase2; docs_link]
  ∧ resolve0 [phase1; phase2; docs_link] "/giaidoan1"
    = mkResolved "/giaidoan1" (dynamicRoute phase1) false
  ∧ resolve0 (rename_slug "m1" "giai-doan-1" [phase1; phase2; docs_link])
      "/giaidoan1" = mkResolved "/" coverRoute true
  ∧ resolve0 (rename_slug "m1" "giai-doan-1" [phase1; phase2; docs_link])
      "/giai-doan-1" = mkResolved "/giai-doan-1" (dynamicRoute phase1) false.
Proof.
  assert (Hin : phase1 ∈ [phase1; phase2; docs_link]) by left.
  split; [exact Hin |].
  destruct (rename_moves_route keepPath staticConfig coverRoute
              [phase1; phase2; docs_link] phase1 "giaidoan1" "giai-doan-1")
    as (Hbefore & _ & Hold & Hnew).
  - exact Hin.
  - apply (bool_decide_unpack _). vm_compute. exact I.
  - reflexivity.
  - reflexivity.
  - discriminate.
  - vm_compute. reflexivity.
  - vm_compute. reflexivity.
  - intros m' Hm' Hid. each_member Hm'; subst m'; [done | |];
      split; discriminate.
  - reflexivity.
  - reflexivity.
  - vm_compute. reflexivity.
  - vm_compute. reflexivity.
  - split; [exact Hbefore |]. split; [exact Hold | exact Hnew].
Defined.

Lemma getMenuPath_resolves_back_witness :
  legacy_phase ∈ [phase1; legacy_phase; docs_link]
  ∧ (getMenuPath [phase1; legacy_phase; docs_link] (menu_id legacy_phase)).1
    = "/dynamic-menu/m3"
  ∧ resolve0 [phase1; legacy_phase; docs_link]
      (getMenuPath [phase1; legacy_phase; docs_link] (menu_id legacy_phase)).1
    = mkResolved
        (getMenuPath [phase1; legacy_phase; docs_link] (menu_id legacy_phase)).1
        (dynamicRoute legacy_phase) false.
Proof.
  assert (Hin : legacy_phase ∈ [phase1; legacy_phase; docs_link])
    by (right; left).
  split; [exact Hin |]. split; [reflexivity |].
  apply (getMenuPath_resolves_back keepPath staticConfig coverRoute
           [phase1; legacy_phase; docs_link] legacy_phase Hin).
  - apply (bool_decide_unpack _). vm_compute. exact I.
  - reflexivity.
  - intros m' slug Hm' Hslug. each_member Hm'; subst m';
      injection Hslug as <- || discriminate Hslug; vm_compute; reflexivity.
  - intros m' slug _ _ _ Hslug. discriminate Hslug.
  - reflexivity.
  - vm_compute. reflexivity.
Defined.

Lemma sidebar_agrees_with_getMenuPath_witness :
  NoDup (menu_id <$> dynamicMenus (mkPage [phase1; docs_link; legacy_phase] ""))
  ∧ main_navigation
      (renderSidebarDynamic (mkPage [phase1; docs_link; legacy_phase] ""))
    = "<a class=" +:+ dquote +:+ "nav-link" +:+ dquote +:+ " href=" +:+ dquote
        +:+ "/tongquan" +:+ dquote +:+ ">📊 Tổng Quan</a>"
        +:+ "<a class=" +:+ dquote +:+ "nav-link" +:+ dquote +:+ " href=" +:+ dquote
        +:+ (getMenuPath [phase1; docs_link; legacy_phase] "m1").1 +:+ dquote
        +:+ ">📋 Giai Đoạn 1</a>"
        +:+ "<a class=" +:+ dquote +:+ "nav-link" +:+ dquote +:+ " href=" +:+ dquote
        +:+ (getMenuPath [phase1; docs_link; legacy_phase] "m3").1 +:+ dquote
        +:+ ">📋 Giai Đoạn 3</a>".
Proof.
  assert (Hnd : NoDup (menu_id
                         <$> dynamicMenus (mkPage [phase1; docs_link; legacy_phase] ""))).
  { apply (bool_decide_unpack _). vm_compute. exact I. }
  split; [exact Hnd |].
  rewrite (sidebar_agrees_with_getMenuPath
             (mkPage [phase1; docs_link; legacy_phase] "") Hnd).
  vm_compute. reflexivity.
Defined.

Lemma sidebar_skips_other_types_witness :
  menu_type docs_link ≠ "task-list"
  ∧ main_navigation
      (renderSidebarDynamic (mkPage ([phase1] ++ docs_link :: [phase2]) ""))
    = main_navigation (renderSidebarDynamic (mkPage ([phase1] ++ [phase2]) "old")).
Proof.
  assert (Hty : menu_type docs_link ≠ "task-list") by discriminate.
  split; [exact Hty |].
  exact (sidebar_skips_other_types [phase1] [phase2] docs_link "" "old" Hty).
Defined.

Lemma snapshot_drives_paths_witness :
  NoDup (menu_id <$> (menu_of_doc <$> twoDocs))
  ∧ (getMenuPath (dynamicMenus (onSnapshot twoDocs (mkPage [phase1; phase2] "")))
                 "m1").1 = "/giai-doan-1"
  ∧ (getMenuPath (dynamicMenus (onSnapshot twoDocs (mkPage [phase1; phase2] "")))
                 "m2").1 = "/tongquan".
Proof.
  assert (Hnd : NoDup (menu_id <$> (menu_of_doc <$> twoDocs))).
  { apply (bool_decide_unpack _). vm_compute. exact I. }
  split; [exact Hnd |].
  destruct (snapshot_drives_paths twoDocs (mkPage [phase1; phase2] "") Hnd)
    as (_ & Hdocs & Hothers).
  split.
  - apply (Hdocs (mkMenuDoc "m1" None (Some "giai-doan-1") "Giai Đoạn 1" "📋"
                            "task-list" 1)). left.
  - apply Hothers. apply (bool_decide_unpack _). vm_compute. exact I.
Defined.

End MoreScenarios.
